(** * Embedding rebuild pipeline of open-notebook

    A shallow embedding of [commands/embedding_commands.py]: the single-item
    embed command, the item collector and the rebuild command, together with
    the guard of the rebuild page ([pages/11_Advanced.py]).

    The commands talk to collaborators that live outside these files (the
    model manager, the domain classes [Source], [Note], [SourceInsight] and
    the store driver [repo_query]).  They are gathered in the interface
    [Collaborators]; the commands are written once against that interface,
    and a store-backed instance is given further down.

    Not modelled: the calls to the logger, which read the state and touch
    nothing the commands return, and [processing_time], which is wall-clock
    time.  The exceptions are those of class [Exception], the ones the two
    [except Exception] clauses catch. *)

From stdpp Require Import gmap strings list fin_maps pretty.
From Stdlib Require Import ZArith QArith Lia.

Close Scope Q_scope.

Local Open Scope string_scope.
Local Open Scope list_scope.

(** ** Exceptions and results *)

(** A Python [Exception], identified with the text [str(e)] yields.  Both
    commands catch [Exception] and only ever look at that text. *)
Inductive exn := Exception (msg : string).

Definition str_exn (e : exn) : string := let 'Exception msg := e in msg.

Definition ValueError (msg : string) : exn := Exception msg.
Definition KeyError (key : string) : exn := Exception ("'" +:+ key +:+ "'").
Definition TypeError (msg : string) : exn := Exception msg.
Definition IndexError (msg : string) : exn := Exception msg.

Inductive result (A : Type) :=
| Ok (a : A)
| Raise (e : exn).
Arguments Ok {A} a.
Arguments Raise {A} e.

(** ** Values handed back by the store driver *)

(** An embedding vector; the commands never inspect a component, only
    whether a vector is there and how long it is. *)
Definition vector := list Z.

#[warnings="-register-all"]
Inductive value :=
| VInt (n : Z)
| VId (rid : string)
| VDict (fields : list (string * value)).

Fixpoint assoc (k : string) (fields : list (string * value)) : option value :=
  match fields with
  | [] => None
  | (k', v) :: rest => if String.eqb k k' then Some v else assoc k rest
  end.

(** [item["id"]] *)
Definition getitem (item : value) (key : string) : result value :=
  match item with
  | VDict fields =>
      match assoc key fields with
      | Some v => Ok v
      | None => Raise (KeyError key)
      end
  | VInt _ => Raise (TypeError "'int' object is not subscriptable")
  | VId _ => Raise (TypeError "'RecordID' object is not subscriptable")
  end.

(** [needle in hay] on texts. *)
Fixpoint contains (needle hay : string) : bool :=
  match hay with
  | EmptyString => String.prefix needle hay
  | String _ hay' => String.prefix needle hay || contains needle hay'
  end.

(** ** Requests and reports *)

(** [Literal["source", "note", "insight"]]: the input type admits no other
    tag, so the final [else] of the single-item command has no input. *)
Inductive item_type := ItSource | ItNote | ItInsight.

Definition item_type_name (t : item_type) : string :=
  match t with
  | ItSource => "source"
  | ItNote => "note"
  | ItInsight => "insight"
  end.

Record EmbedSingleItemInput := {
  in_item_id : string;
  in_item_type : item_type;
}.

Record EmbedSingleItemOutput := {
  es_success : bool;
  es_item_id : string;
  es_item_type : string;
  chunks_created : Z;
  es_error_message : option string;
}.

Inductive mode := existing | all.

Record RebuildEmbeddingsInput := {
  in_mode : mode;
  include_sources : bool;
  include_notes : bool;
  include_insights : bool;
}.

Record RebuildEmbeddingsOutput := {
  success : bool;
  total_items : nat;
  processed_items : nat;
  failed_items : nat;
  sources_processed : nat;
  notes_processed : nat;
  insights_processed : nat;
  error_message : option string;
}.

(** The queries the commands send through [repo_query], one constructor per
    query text of the source. *)
Inductive query :=
| QCountChunks (source_id : string)
    (* SELECT VALUE count() FROM source_embedding WHERE source = $source_id GROUP ALL *)
| QUpdateInsight (insight_id : string) (embedding : vector)
    (* UPDATE $insight_id SET embedding = $embedding *)
| QSourcesWithEmbedding
    (* RETURN array::distinct(SELECT VALUE source.id FROM source_embedding
       WHERE embedding != none AND array::len(embedding) > 0) *)
| QSourcesAll
    (* SELECT id FROM source WHERE full_text != none *)
| QNotesWithEmbedding
    (* SELECT id FROM note WHERE embedding != none AND array::len(embedding) > 0 *)
| QNotesAll
    (* SELECT id FROM note WHERE content != none *)
| QInsightsWithEmbedding
    (* SELECT id FROM source_insight WHERE embedding != none AND array::len(embedding) > 0 *)
| QInsightsAll.
    (* SELECT id FROM source_insight *)

(** ** The collaborators *)

Class Collaborators (W : Type) := {
  Model : Type;
  Source : Type;
  Note : Type;
  SourceInsight : Type;
  (* model_manager.get_embedding_model() *)
  get_embedding_model : W → result (option Model) * W;
  (* EMBEDDING_MODEL.aembed(texts) *)
  aembed : Model → list string → W → result (list vector) * W;
  (* repo_query(query, vars) *)
  repo_query : query → W → result (list value) * W;
  (* Source.get(id), source.vectorize() *)
  Source_get : string → W → result (option Source) * W;
  Source_vectorize : Source → W → result unit * W;
  (* Note.get(id), note.save() *)
  Note_get : string → W → result (option Note) * W;
  Note_save : Note → W → result unit * W;
  (* SourceInsight.get(id), insight.content *)
  SourceInsight_get : string → W → result (option SourceInsight) * W;
  insight_content : SourceInsight → string;
  (* str(item) on a value of the store driver *)
  str_value : value → string;
  (* text of the validation error raised when [chunks_created] is handed
     something that is not an integer *)
  validation_text : value → string;
}.

(** Every call that leaves the command is recorded, in order. *)
Inductive event :=
| EvGetModel
| EvQuery (q : query)
| EvGet (t : item_type) (id : string)
| EvVectorize (id : string)
| EvSave (id : string)
| EvEmbed (texts : list string).

(** ** The command monad: collaborator state, call log, exceptions *)

Section Commands.
Context {W : Type} `{Collaborators W}.

Definition M (A : Type) : Type := W * list event → result A * (W * list event).

Definition ret {A} (a : A) : M A := λ s, (Ok a, s).

Definition raise {A} (e : exn) : M A := λ s, (Raise e, s).

Definition bind {A B} (m : M A) (k : A → M B) : M B :=
  λ s, match m s with
       | (Ok a, s') => k a s'
       | (Raise e, s') => (Raise e, s')
       end.

(** [try: body except Exception as e: handler] *)
Definition try_except {A} (body : M A) (handler : exn → M A) : M A :=
  λ s, match body s with
       | (Ok a, s') => (Ok a, s')
       | (Raise e, s') => handler e s'
       end.

Definition lift {A} (r : result A) : M A := λ s, (r, s).

Definition call {A} (ev : event) (op : W → result A * W) : M A :=
  λ s, let (r, w') := op s.1 in (r, (w', s.2 ++ [ev])).

Notation "'do' x <- m ; k" := (bind m (λ x, k))
  (at level 10, x name, m at level 100, k at level 200).

(** [for x in l: s = body(x, s)] *)
Fixpoint for_each {A S} (body : A → S → M S) (l : list A) (s : S) : M S :=
  match l with
  | [] => ret s
  | x :: l' => do s' <- body x s; for_each body l' s'
  end.

(** [[f(item) for item in result]] with a fallible [f] *)
Fixpoint comprehension {A B} (f : A → result B) (l : list A) : result (list B) :=
  match l with
  | [] => Ok []
  | x :: l' =>
      match f x with
      | Raise e => Raise e
      | Ok y =>
          match comprehension f l' with
          | Raise e => Raise e
          | Ok ys => Ok (y :: ys)
          end
      end
  end.

(** ** embed_single_item_command *)

Definition no_model_message : string :=
  "No embedding model configured. Please configure one in the Models section.".

Definition not_found_message (kind id : string) : string :=
  kind +:+ " '" +:+ id +:+ "' not found".

(** [xs[0]] *)
Definition first {A} (xs : list A) : result A :=
  match xs with
  | x :: _ => Ok x
  | [] => Raise (IndexError "list index out of range")
  end.

(** Lines 93-98: reading the chunk count off the count query's answer. *)
Definition read_count (chunks_result : list value) : result Z :=
  match chunks_result with
  | VDict fields :: _ =>
      match assoc "count" fields with
      | None => Ok 0%Z
      | Some (VInt n) => Ok n
      | Some v => Raise (Exception (validation_text v))
      end
  | VInt n :: _ => Ok n
  | _ => Ok 0%Z
  end.

Definition embed_single_item_body (input_data : EmbedSingleItemInput)
  : M EmbedSingleItemOutput :=
  let item_id := in_item_id input_data in
  do EMBEDDING_MODEL <- call EvGetModel get_embedding_model;
  match EMBEDDING_MODEL with
  | None => raise (ValueError no_model_message)
  | Some EMBEDDING_MODEL =>
      do chunks <-
        match in_item_type input_data with
        | ItSource =>
            do source <- call (EvGet ItSource item_id) (Source_get item_id);
            match source with
            | None => raise (ValueError (not_found_message "Source" item_id))
            | Some source =>
                do _ <- call (EvVectorize item_id) (Source_vectorize source);
                do chunks_result <-
                  call (EvQuery (QCountChunks item_id)) (repo_query (QCountChunks item_id));
                lift (read_count chunks_result)
            end
        | ItNote =>
            do note <- call (EvGet ItNote item_id) (Note_get item_id);
            match note with
            | None => raise (ValueError (not_found_message "Note" item_id))
            | Some note =>
                do _ <- call (EvSave item_id) (Note_save note);
                ret 0%Z
            end
        | ItInsight =>
            do insight <- call (EvGet ItInsight item_id) (SourceInsight_get item_id);
            match insight with
            | None => raise (ValueError (not_found_message "Insight" item_id))
            | Some insight =>
                let texts := [insight_content insight] in
                do vectors <- call (EvEmbed texts) (aembed EMBEDDING_MODEL texts);
                do embedding <- lift (first vectors);
                do _ <- call (EvQuery (QUpdateInsight item_id embedding))
                          (repo_query (QUpdateInsight item_id embedding));
                ret 0%Z
            end
        end;
      ret {| es_success := true;
             es_item_id := item_id;
             es_item_type := item_type_name (in_item_type input_data);
             chunks_created := chunks;
             es_error_message := None |}
  end.

Definition embed_single_item_command (input_data : EmbedSingleItemInput)
  : M EmbedSingleItemOutput :=
  try_except (embed_single_item_body input_data)
    (λ e, ret {| es_success := false;
                 es_item_id := in_item_id input_data;
                 es_item_type := item_type_name (in_item_type input_data);
                 chunks_created := 0;
                 es_error_message := Some (str_exn e) |}).

(** ** collect_items_for_rebuild *)

Record items := {
  sources : list string;
  notes : list string;
  insights : list string;
}.

(** [[str(item["id"]) for item in result] if result else []] *)
Definition ids_of_rows (result : list value) : M (list string) :=
  lift (comprehension
          (λ item, match getitem item "id" with
                   | Ok v => Ok (str_value v)
                   | Raise e => Raise e
                   end)
          result).

Definition collect_items_for_rebuild
    (m : mode) (include_sources include_notes include_insights : bool) : M items :=
  do srcs <-
    (if include_sources then
       match m with
       | existing =>
           do result <- call (EvQuery QSourcesWithEmbedding) (repo_query QSourcesWithEmbedding);
           ret (str_value <$> result)
       | all =>
           do result <- call (EvQuery QSourcesAll) (repo_query QSourcesAll);
           ids_of_rows result
       end
     else ret []);
  do nts <-
    (if include_notes then
       do result <-
         match m with
         | existing => call (EvQuery QNotesWithEmbedding) (repo_query QNotesWithEmbedding)
         | all => call (EvQuery QNotesAll) (repo_query QNotesAll)
         end;
       ids_of_rows result
     else ret []);
  do ins <-
    (if include_insights then
       do result <-
         match m with
         | existing => call (EvQuery QInsightsWithEmbedding) (repo_query QInsightsWithEmbedding)
         | all => call (EvQuery QInsightsAll) (repo_query QInsightsAll)
         end;
       ids_of_rows result
     else ret []);
  ret {| sources := srcs; notes := nts; insights := ins |}.

(** ** rebuild_embeddings_command *)

(** The four counters of lines 277-280. *)
Record counters := {
  c_sources_processed : nat;
  c_notes_processed : nat;
  c_insights_processed : nat;
  c_failed_items : nat;
}.

Definition counters_init : counters :=
  {| c_sources_processed := 0; c_notes_processed := 0;
     c_insights_processed := 0; c_failed_items := 0 |}.

Definition incr_failed (c : counters) : counters :=
  {| c_sources_processed := c_sources_processed c;
     c_notes_processed := c_notes_processed c;
     c_insights_processed := c_insights_processed c;
     c_failed_items := c_failed_items c + 1 |}.

Definition incr_sources (c : counters) : counters :=
  {| c_sources_processed := c_sources_processed c + 1;
     c_notes_processed := c_notes_processed c;
     c_insights_processed := c_insights_processed c;
     c_failed_items := c_failed_items c |}.

Definition incr_notes (c : counters) : counters :=
  {| c_sources_processed := c_sources_processed c;
     c_notes_processed := c_notes_processed c + 1;
     c_insights_processed := c_insights_processed c;
     c_failed_items := c_failed_items c |}.

Definition incr_insights (c : counters) : counters :=
  {| c_sources_processed := c_sources_processed c;
     c_notes_processed := c_notes_processed c;
     c_insights_processed := c_insights_processed c + 1;
     c_failed_items := c_failed_items c |}.

(** [processed_items = sources_processed + notes_processed + insights_processed] *)
Definition c_processed_items (c : counters) : nat :=
  c_sources_processed c + c_notes_processed c + c_insights_processed c.

(** The try block of the loop over sources, lines 286-298. *)
Definition source_try (source_id : string) (c : counters) : M counters :=
  do source <- call (EvGet ItSource source_id) (Source_get source_id);
  match source with
  | None => ret (incr_failed c)
  | Some source =>
      do _ <- call (EvVectorize source_id) (Source_vectorize source);
      ret (incr_sources c)
  end.

(** The try block of the loop over notes, lines 308-318. *)
Definition note_try (note_id : string) (c : counters) : M counters :=
  do note <- call (EvGet ItNote note_id) (Note_get note_id);
  match note with
  | None => ret (incr_failed c)
  | Some note =>
      do _ <- call (EvSave note_id) (Note_save note);
      ret (incr_notes c)
  end.

(** The try block of the loop over insights, lines 328-350. *)
Definition insight_try (EMBEDDING_MODEL : Model) (insight_id : string) (c : counters)
  : M counters :=
  do insight <- call (EvGet ItInsight insight_id) (SourceInsight_get insight_id);
  match insight with
  | None => ret (incr_failed c)
  | Some insight =>
      let texts := [insight_content insight] in
      do vectors <- call (EvEmbed texts) (aembed EMBEDDING_MODEL texts);
      do embedding <- lift (first vectors);
      do _ <- call (EvQuery (QUpdateInsight insight_id embedding))
                (repo_query (QUpdateInsight insight_id embedding));
      ret (incr_insights c)
  end.

(** One iteration of each loop: the try block and its
    [except Exception: failed_items += 1]. *)
Definition rebuild_source (source_id : string) (c : counters) : M counters :=
  try_except (source_try source_id c) (λ e, ret (incr_failed c)).

Definition rebuild_note (note_id : string) (c : counters) : M counters :=
  try_except (note_try note_id c) (λ e, ret (incr_failed c)).

Definition rebuild_insight (EMBEDDING_MODEL : Model) (insight_id : string) (c : counters)
  : M counters :=
  try_except (insight_try EMBEDDING_MODEL insight_id c) (λ e, ret (incr_failed c)).

(** The three loops in sequence, lines 282-354. *)
Definition process_items (EMBEDDING_MODEL : Model) (its : items) (c : counters) : M counters :=
  do c <- for_each rebuild_source (sources its) c;
  do c <- for_each rebuild_note (notes its) c;
  for_each (rebuild_insight EMBEDDING_MODEL) (insights its) c.

Definition rebuild_embeddings_body (input_data : RebuildEmbeddingsInput)
  : M RebuildEmbeddingsOutput :=
  do EMBEDDING_MODEL <- call EvGetModel get_embedding_model;
  match EMBEDDING_MODEL with
  | None => raise (ValueError no_model_message)
  | Some EMBEDDING_MODEL =>
      do its <- collect_items_for_rebuild (in_mode input_data)
                  (include_sources input_data) (include_notes input_data)
                  (include_insights input_data);
      let total_items := length (sources its) + length (notes its) + length (insights its) in
      if Nat.eqb total_items 0 then
        ret {| success := true; total_items := 0; processed_items := 0;
               failed_items := 0; sources_processed := 0; notes_processed := 0;
               insights_processed := 0; error_message := None |}
      else
        do c <- process_items EMBEDDING_MODEL its counters_init;
        ret {| success := true; total_items := total_items;
               processed_items := c_processed_items c;
               failed_items := c_failed_items c;
               sources_processed := c_sources_processed c;
               notes_processed := c_notes_processed c;
               insights_processed := c_insights_processed c;
               error_message := None |}
  end.

Definition rebuild_embeddings_command (input_data : RebuildEmbeddingsInput)
  : M RebuildEmbeddingsOutput :=
  try_except (rebuild_embeddings_body input_data)
    (λ e, ret {| success := false; total_items := 0; processed_items := 0;
                 failed_items := 0; sources_processed := 0; notes_processed := 0;
                 insights_processed := 0; error_message := Some (str_exn e) |}).

(** ** The run seen as one pass over a work list *)

Definition work (its : items) : list (item_type * string) :=
  (pair ItSource <$> sources its) ++ (pair ItNote <$> notes its)
  ++ (pair ItInsight <$> insights its).

Definition item_try (EMBEDDING_MODEL : Model) (it : item_type * string) (c : counters)
  : M counters :=
  match it.1 with
  | ItSource => source_try it.2 c
  | ItNote => note_try it.2 c
  | ItInsight => insight_try EMBEDDING_MODEL it.2 c
  end.

Definition process_item (EMBEDDING_MODEL : Model) (it : item_type * string) (c : counters)
  : M counters :=
  match it.1 with
  | ItSource => rebuild_source it.2 c
  | ItNote => rebuild_note it.2 c
  | ItInsight => rebuild_insight EMBEDDING_MODEL it.2 c
  end.

Definition incr_processed (t : item_type) (c : counters) : counters :=
  match t with
  | ItSource => incr_sources c
  | ItNote => incr_notes c
  | ItInsight => incr_insights c
  end.

(** The lookup of an item answers that it is absent. *)
Definition item_absent (it : item_type * string) (w : W) : Prop :=
  match it.1 with
  | ItSource => (Source_get it.2 w).1 = Ok None
  | ItNote => (Note_get it.2 w).1 = Ok None
  | ItInsight => (SourceInsight_get it.2 w).1 = Ok None
  end.

(** The items whose lookup a call log records, in order. *)
Definition attempts (log : list event) : list (item_type * string) :=
  omap (λ ev, match ev with EvGet t id => Some (t, id) | _ => None end) log.

Definition total (its : items) : nat :=
  length (sources its) + length (notes its) + length (insights its).

(** The collector as the command calls it, and the two constant reports of
    lines 268-274 and 385-392. *)
Definition collect_for (input_data : RebuildEmbeddingsInput) : M items :=
  collect_items_for_rebuild (in_mode input_data) (include_sources input_data)
    (include_notes input_data) (include_insights input_data).

Definition failure_report (msg : string) : RebuildEmbeddingsOutput :=
  {| success := false; total_items := 0; processed_items := 0; failed_items := 0;
     sources_processed := 0; notes_processed := 0; insights_processed := 0;
     error_message := Some msg |}.

Definition empty_report : RebuildEmbeddingsOutput :=
  {| success := true; total_items := 0; processed_items := 0; failed_items := 0;
     sources_processed := 0; notes_processed := 0; insights_processed := 0;
     error_message := None |}.

End Commands.

(** ** The guard of the rebuild page *)

(** [disabled=not (include_sources or include_notes or include_insights)] on
    the start button of the rebuild page. *)
Definition start_rebuild_disabled (include_sources include_notes include_insights : bool) : bool :=
  negb (include_sources || include_notes || include_insights).

(** ** A store-backed instance of the collaborators *)

(** Modelled from the spec: the content store (section 3: documents with
    their chunks, notes and insights, each with an optional embedding).
    These are the rows of the four tables the queries range over. *)
Record source_row := { full_text : option string }.

Record chunk_row := {
  chunk_source : string;
  chunk_content : string;
  chunk_embedding : option vector;
}.

Record note_row := {
  note_content : option string;
  note_embedding : option vector;
}.

Record insight_row := {
  insight_text : string;
  insight_embedding : option vector;
}.

(** Tables keyed by record id; [source_embedding] is kept as its list of
    rows, whose own ids no query of the commands mentions. *)
Record Store := {
  source_table : gmap string source_row;
  source_embedding : list chunk_row;
  note_table : gmap string note_row;
  source_insight : gmap string insight_row;
}.

(** What is configured around the store: the outcome of looking up the
    embedding model (a model embeds one text, or fails on it), the chunking
    policy, and the queries on which the store fails ([StoreError]). *)
Record Config := {
  model_lookup : result (option (string → result vector));
  chunk_policy : string → list string;
  query_fault : query → option exn;
}.

(** [embedding != none AND array::len(embedding) > 0] *)
Definition has_embedding (embedding : option vector) : bool :=
  match embedding with
  | Some v => negb (Nat.eqb (length v) 0)
  | None => false
  end.

(** [SELECT id FROM table WHERE cond]: one dictionary per selected row. *)
Definition select_id {R} (cond : R → bool) (table : gmap string R) : list value :=
  (λ kv, VDict [("id", VId kv.1)])
    <$> filter (λ kv, cond kv.2 = true) (map_to_list table).

(** [array::distinct(SELECT VALUE source.id FROM source_embedding WHERE ...)] *)
Definition embedded_sources (chunks : list chunk_row) : list string :=
  remove_dups
    (chunk_source <$> filter (λ r, has_embedding (chunk_embedding r) = true) chunks).

(** [count()] over the chunks of one source. *)
Definition count_chunks (source_id : string) (chunks : list chunk_row) : nat :=
  length (filter (λ r, chunk_source r = source_id) chunks).

Definition set_insight_embedding (embedding : vector) (r : insight_row) : insight_row :=
  {| insight_text := insight_text r; insight_embedding := Some embedding |}.

(** Modelled from the spec: [repo_query], the store driver (section 6,
    [query(type, filter)] and [writeEmbedding]); each query is read off its
    text in the commands.  A grouped count over no rows answers with the
    empty list. *)
Definition eval_query (q : query) (st : Store) : result (list value) * Store :=
  match q with
  | QCountChunks source_id =>
      let n := count_chunks source_id (source_embedding st) in
      (Ok (if Nat.eqb n 0 then [] else [VInt (Z.of_nat n)]), st)
  | QUpdateInsight insight_id embedding =>
      (Ok [],
       {| source_table := source_table st;
          source_embedding := source_embedding st;
          note_table := note_table st;
          source_insight := alter (set_insight_embedding embedding) insight_id
                              (source_insight st) |})
  | QSourcesWithEmbedding =>
      (Ok (VId <$> embedded_sources (source_embedding st)), st)
  | QSourcesAll =>
      (Ok (select_id (λ r, bool_decide (is_Some (full_text r))) (source_table st)), st)
  | QNotesWithEmbedding =>
      (Ok (select_id (λ r, has_embedding (note_embedding r)) (note_table st)), st)
  | QNotesAll =>
      (Ok (select_id (λ r, bool_decide (is_Some (note_content r))) (note_table st)), st)
  | QInsightsWithEmbedding =>
      (Ok (select_id (λ r, has_embedding (insight_embedding r)) (source_insight st)), st)
  | QInsightsAll =>
      (Ok (select_id (λ _, true) (source_insight st)), st)
  end.

(** Modelled from the spec: a store that is unreachable for a query fails
    it ([StoreError], section 7) and changes nothing. *)
Definition store_query (cfg : Config) (q : query) (st : Store)
  : result (list value) * Store :=
  match query_fault cfg q with
  | Some e => (Raise e, st)
  | None => eval_query q st
  end.

(** Modelled from the spec: [Source.get], [Note.get], [SourceInsight.get]
    (section 6, [getById(type, id)] answering the item or its absence).  The
    object carries the id and the row as read. *)
Definition store_get {R} (table : Store → gmap string R) (id : string) (st : Store)
  : result (option (string * R)) * Store :=
  (Ok (match table st !! id with
       | Some r => Some (id, r)
       | None => None
       end), st).

(** Modelled from the spec: the embedding provider as the domain classes
    reach it (section 6, [isConfigured] and the typed unavailability). *)
Definition provider (cfg : Config) : result (string → result vector) :=
  match model_lookup cfg with
  | Raise e => Raise e
  | Ok None => Raise (ValueError "No embedding model configured. Please configure one in the Models section.")
  | Ok (Some m) => Ok m
  end.

Definition new_chunk (source_id : string) (tv : string * vector) : chunk_row :=
  {| chunk_source := source_id; chunk_content := tv.1; chunk_embedding := Some tv.2 |}.

(** The pieces the chunking policy cuts a source's text into. *)
Definition source_texts (cfg : Config) (row : source_row) : list string :=
  chunk_policy cfg (default "" (full_text row)).

(** The chunks of one source give way to new ones. *)
Definition replace_chunks (source_id : string) (new : list chunk_row) (st : Store) : Store :=
  {| source_table := source_table st;
     source_embedding :=
       filter (λ r, chunk_source r ≠ source_id) (source_embedding st) ++ new;
     note_table := note_table st;
     source_insight := source_insight st |}.

(** Modelled from the spec: [Source.vectorize] (section 4.2, the document
    case): split the content into chunks, compute one embedding per chunk,
    persist all chunk vectors, replacing any prior chunks for that document
    id; on any failure the store is left as it was. *)
Definition store_vectorize (cfg : Config) (src : string * source_row) (st : Store)
  : result unit * Store :=
  match provider cfg with
  | Raise e => (Raise e, st)
  | Ok m =>
      let texts := source_texts cfg src.2 in
      match comprehension m texts with
      | Raise e => (Raise e, st)
      | Ok vectors =>
          (Ok tt, replace_chunks src.1 (new_chunk src.1 <$> zip texts vectors) st)
      end
  end.

(** Modelled from the spec: [Note.save] (section 4.2, the note case):
    compute a single embedding over the body and persist it, overwriting any
    prior vector. *)
Definition store_save (cfg : Config) (nt : string * note_row) (st : Store)
  : result unit * Store :=
  match provider cfg with
  | Raise e => (Raise e, st)
  | Ok m =>
      match m (default "" (note_content nt.2)) with
      | Raise e => (Raise e, st)
      | Ok v =>
          (Ok tt,
           {| source_table := source_table st;
              source_embedding := source_embedding st;
              note_table :=
                <[nt.1 := {| note_content := note_content nt.2; note_embedding := Some v |}]>
                  (note_table st);
              source_insight := source_insight st |})
      end
  end.

(** Modelled from the spec: the remaining collaborators over the store: the
    model manager answers with the configured lookup, the model embeds a
    batch text by text, and a record id renders as its text (the queries of
    the commands hand nothing but record ids to [str]). *)
Definition store_env (cfg : Config) : Collaborators Store :=
  {| Model := string → result vector;
     Source := string * source_row;
     Note := string * note_row;
     SourceInsight := string * insight_row;
     get_embedding_model := λ st, (model_lookup cfg, st);
     aembed := λ m texts st, (comprehension m texts, st);
     repo_query := store_query cfg;
     Source_get := store_get source_table;
     Source_vectorize := store_vectorize cfg;
     Note_get := store_get note_table;
     Note_save := store_save cfg;
     SourceInsight_get := store_get source_insight;
     insight_content := λ ins, insight_text ins.2;
     str_value := λ v, match v with
                       | VId rid => rid
                       | VInt n => pretty n
                       | VDict _ => "<dict>"
                       end;
     validation_text := λ _, "Input should be a valid integer" |}.

(** ** What the collector selects from a store *)

(** The ids a [SELECT id ... WHERE cond] picks. *)
Definition selected_ids {R} (cond : R → bool) (table : gmap string R) : list string :=
  (filter (λ kv, cond kv.2 = true) (map_to_list table)).*1.

(** What the collector hands back when no query fails, by mode and flags. *)
Definition store_items (md : mode) (b1 b2 b3 : bool) (st : Store) : items :=
  {| sources :=
       if b1 then
         match md with
         | existing => embedded_sources (source_embedding st)
         | all => selected_ids (λ r, bool_decide (is_Some (full_text r))) (source_table st)
         end
       else [];
     notes :=
       if b2 then
         match md with
         | existing => selected_ids (λ r, has_embedding (note_embedding r)) (note_table st)
         | all => selected_ids (λ r, bool_decide (is_Some (note_content r))) (note_table st)
         end
       else [];
     insights :=
       if b3 then
         match md with
         | existing =>
             selected_ids (λ r, has_embedding (insight_embedding r)) (source_insight st)
         | all => selected_ids (λ _, true) (source_insight st)
         end
       else [] |}.

Definition source_request (id : string) : EmbedSingleItemInput :=
  {| in_item_id := id; in_item_type := ItSource |}.

Definition note_request (id : string) : EmbedSingleItemInput :=
  {| in_item_id := id; in_item_type := ItNote |}.

(** ** A sample store and sample configurations *)

(** A model that fails on the text boom and otherwise answers with a
    one-component vector. *)
Definition sample_model (text : string) : result vector :=
  if String.eqb text "boom" then Raise (Exception "provider down")
  else Ok [Z.of_nat (String.length text)].

Definition sample_cfg : Config :=
  {| model_lookup := Ok (Some sample_model);
     chunk_policy := λ text, [text; text];
     query_fault := λ _, None |}.

Definition no_model_cfg : Config :=
  {| model_lookup := Ok None;
     chunk_policy := λ text, [text];
     query_fault := λ _, None |}.

(** The model lookup raises an exception without a text, as
    [asyncio.TimeoutError()] has none. *)
Definition silent_failure_cfg : Config :=
  {| model_lookup := Raise (Exception "");
     chunk_policy := λ text, [text];
     query_fault := λ _, None |}.

(** The store fails on the query for the notes. *)
Definition notes_outage_cfg : Config :=
  {| model_lookup := Ok (Some sample_model);
     chunk_policy := λ text, [text];
     query_fault := λ q, match q with
                         | QNotesWithEmbedding => Some (Exception "store unreachable")
                         | _ => None
                         end |}.

Definition sample_chunk (source_id : string) (embedding : option vector) : chunk_row :=
  {| chunk_source := source_id; chunk_content := "text"; chunk_embedding := embedding |}.

Definition sample_store : Store :=
  {| source_table :=
       {[ "source:a" := {| full_text := Some "hello" |};
          "source:b" := {| full_text := Some "boom" |} ]};
     source_embedding :=
       [ sample_chunk "source:a" (Some [1%Z]);
         sample_chunk "source:a" (Some [2%Z]);
         sample_chunk "source:gone" (Some [3%Z]);
         sample_chunk "source:b" (Some []) ];
     note_table :=
       {[ "note:n" := {| note_content := Some "hi"; note_embedding := Some [4%Z] |};
          "note:plain" := {| note_content := Some "yo"; note_embedding := None |} ]};
     source_insight :=
       {[ "source_insight:i" :=
            {| insight_text := "boom"; insight_embedding := Some [5%Z] |} ]} |}.

Definition empty_store : Store :=
  {| source_table := ∅; source_embedding := []; note_table := ∅; source_insight := ∅ |}.

Definition rebuild_input (md : mode) (b1 b2 b3 : bool) : RebuildEmbeddingsInput :=
  {| in_mode := md; include_sources := b1; include_notes := b2; include_insights := b3 |}.

Definition sample_queries : list event :=
  [EvGetModel; EvQuery QSourcesWithEmbedding; EvQuery QNotesWithEmbedding;
   EvQuery QInsightsWithEmbedding].

Definition sample_items : items :=
  {| sources := ["source:a"; "source:gone"];
     notes := ["note:n"];
     insights := ["source_insight:i"] |}.

(** ** The queries of a collection and the names in the messages *)

(** The query the collector sends for one type, by mode. *)
Definition sources_query (md : mode) : query :=
  match md with existing => QSourcesWithEmbedding | all => QSourcesAll end.

Definition notes_query (md : mode) : query :=
  match md with existing => QNotesWithEmbedding | all => QNotesAll end.

Definition insights_query (md : mode) : query :=
  match md with existing => QInsightsWithEmbedding | all => QInsightsAll end.

(** The queries of a collection that runs to its end: one per selected
    type, sources first, then notes, then insights. *)
Definition planned_queries (md : mode) (b1 b2 b3 : bool) : list event :=
  (if b1 then [EvQuery (sources_query md)] else [])
  ++ (if b2 then [EvQuery (notes_query md)] else [])
  ++ (if b3 then [EvQuery (insights_query md)] else []).

(** The name by which the not-found message of lines 84, 106 and 115 calls
    the item. *)
Definition kind_name (t : item_type) : string :=
  match t with
  | ItSource => "Source"
  | ItNote => "Note"
  | ItInsight => "Insight"
  end.

Definition item_request (t : item_type) (id : string) : EmbedSingleItemInput :=
  {| in_item_id := id; in_item_type := t |}.

Definition embed_failure (t : item_type) (id msg : string) : EmbedSingleItemOutput :=
  {| es_success := false; es_item_id := id; es_item_type := item_type_name t;
     chunks_created := 0; es_error_message := Some msg |}.

#[global] Instance item_type_eq_dec : EqDecision item_type.
Proof. solve_decision. Defined.

(** The per-type counter that an item of a type adds to. *)
Definition processed_of (t : item_type) (c : counters) : nat :=
  match t with
  | ItSource => c_sources_processed c
  | ItNote => c_notes_processed c
  | ItInsight => c_insights_processed c
  end.

(** ** Items present in a store, and a configuration with nothing failing *)

(** The row an item of a work list names is in its table. *)
Definition present (it : item_type * string) (st : Store) : Prop :=
  match it.1 with
  | ItSource => is_Some (source_table st !! it.2)
  | ItNote => is_Some (note_table st !! it.2)
  | ItInsight => is_Some (source_insight st !! it.2)
  end.

(** A model is configured and embeds every text, and no query fails. *)
Definition healthy (cfg : Config) (m : string → result vector) : Prop :=
  model_lookup cfg = Ok (Some m)
  ∧ (∀ text, ∃ v, m text = Ok v)
  ∧ (∀ q, query_fault cfg q = None).

(** * The configuration endpoint ([api/routers/config.py]) *)

(** A value read from [pyproject.toml]: a string, a table, or anything
    else. *)
#[warnings="-register-all"]
Inductive toml :=
| TomlStr (s : string)
| TomlTable (entries : list (string * toml))
| TomlOther.

Fixpoint toml_assoc (k : string) (entries : list (string * toml)) : option toml :=
  match entries with
  | [] => None
  | (k', v) :: rest => if String.eqb k k' then Some v else toml_assoc k rest
  end.

(** [value.get(key, default)]: on a table the entry or the default; anything
    else has no [get]. *)
Definition toml_get (v : toml) (key : string) (dflt : toml) : result toml :=
  match v with
  | TomlTable entries => Ok (default dflt (toml_assoc key entries))
  | TomlStr _ => Raise (Exception "'str' object has no attribute 'get'")
  | TomlOther => Raise (Exception "object has no attribute 'get'")
  end.

(** The in-memory cache [_version_cache]. *)
Record version_cache := {
  latest_version : option string;
  has_update : bool;
  timestamp : Q;
  check_failed : bool;
}.

Definition initial_cache : version_cache :=
  {| latest_version := None; has_update := false; timestamp := 0%Q;
     check_failed := false |}.

(** How the health query ends: with a result, of which only the truth value
    is looked at, with the time-out of [asyncio.wait_for], or with another
    exception. *)
Inductive db_outcome :=
| DbResult (truthy : bool)
| DbTimeout
| DbError (e : exn).

Inductive db_status := online | offline.

Record db_health := {
  status : db_status;
  error : option string;
}.

(** What the endpoint reaches outside the module. *)
Class ConfigServices (W : Type) := {
  (* open(pyproject_path) and tomllib.load *)
  read_pyproject : W → result (list (string * toml)) * W;
  (* get_version_from_github(url, branch) *)
  get_version_from_github : string → string → W → result string * W;
  (* compare_versions(current, latest) *)
  compare_versions : toml → string → result Z;
  (* time.time() *)
  time_time : W → Q * W;
  (* asyncio.wait_for(repo_query("RETURN 1"), timeout=2.0) *)
  health_query : W → db_outcome * W;
}.

Inductive api_call := CallReadFile | CallGitHub | CallClock | CallHealth.

(** The request as far as the endpoint reads it: headers by lower-case
    name, the scheme of the URL, and the host of the client address when
    there is one. *)
Record request := {
  headers : gmap string string;
  url_scheme : string;
  client : option string;
}.

Record config_response := {
  apiUrl : string;
  version : toml;
  latestVersion : option string;
  hasUpdate : bool;
  dbStatus : db_status;
}.

Section ConfigRouter.
Context {W : Type} `{ConfigServices W}.

(** The state of the API process: the module's cache, the world outside,
    and the calls made to it so far. *)
Record api_state := {
  cache : version_cache;
  world : W;
  calls : list api_call;
}.

Definition unknown_version : toml := TomlStr "unknown".

(** [get_version], lines 28-37. *)
Definition get_version (s : api_state) : toml * api_state :=
  let (r, w1) := read_pyproject (world s) in
  let s1 := {| cache := cache s; world := w1; calls := calls s ++ [CallReadFile] |} in
  match r with
  | Raise _ => (unknown_version, s1)
  | Ok pyproject =>
      let project := default (TomlTable []) (toml_assoc "project" pyproject) in
      match toml_get project "version" unknown_version with
      | Ok v => (v, s1)
      | Raise _ => (unknown_version, s1)
      end
  end.

Definition github_url : string := "https://github.com/lfnovo/open-notebook".

(** The try block of lines 57-80 up to the point where the cache is
    written: the fetch and the comparison. *)
Definition check_github (current_version : toml) (w : W)
  : result (string * bool) * W :=
  let (r, w1) := get_version_from_github github_url "main" w in
  match r with
  | Raise e => (Raise e, w1)
  | Ok latest =>
      match compare_versions current_version latest with
      | Raise e => (Raise e, w1)
      | Ok c => (Ok (latest, (c <? 0)%Z), w1)
      end
  end.

(** [get_latest_version_cached], lines 40-91. *)
Definition get_latest_version_cached (current_version : toml) (s : api_state)
  : (option string * bool) * api_state :=
  if Qlt_le_dec 0%Q (timestamp (cache s)) then
    ((latest_version (cache s), has_update (cache s)), s)
  else
    let (r, w1) := check_github current_version (world s) in
    let (now, w2) := time_time w1 in
    let log := calls s ++ [CallGitHub; CallClock] in
    match r with
    | Ok (latest, update) =>
        ((Some latest, update),
         {| cache := {| latest_version := Some latest; has_update := update;
                        timestamp := now; check_failed := false |};
            world := w2; calls := log |})
    | Raise _ =>
        ((None, false),
         {| cache := {| latest_version := None; has_update := false;
                        timestamp := now; check_failed := true |};
            world := w2; calls := log |})
    end.

(** [check_database_health], lines 94-114. *)
Definition check_database_health (s : api_state) : db_health * api_state :=
  let (o, w1) := health_query (world s) in
  let s1 := {| cache := cache s; world := w1; calls := calls s ++ [CallHealth] |} in
  (match o with
   | DbResult true => {| status := online; error := None |}
   | DbResult false => {| status := offline; error := Some "Empty result" |}
   | DbTimeout => {| status := offline; error := Some "Health check timeout" |}
   | DbError e => {| status := offline; error := Some (str_exn e) |}
   end, s1).

Definition AttributeError (msg : string) : exn := Exception msg.

(** Lines 139-147: the URL read off the request.  The default of the second
    [get] is built before the header is looked up, so it needs the client
    address even when the header is there. *)
Definition detect_api_url (req : request) : result string :=
  let proto := default (url_scheme req) (headers req !! "x-forwarded-proto") in
  match client req with
  | None => Raise (AttributeError "'NoneType' object has no attribute 'host'")
  | Some client_host =>
      let host := default (client_host +:+ ":5055") (headers req !! "host") in
      Ok (proto +:+ "://" +:+ host)
  end.

(** [if env_api_url:] *)
Definition truthy_env (env_api_url : option string) : option string :=
  match env_api_url with
  | Some "" => None
  | Some url => Some url
  | None => None
  end.

(** [get_config], lines 117-177.  The callee of the inner try block returns
    in every case, so its [except] has nothing to catch. *)
Definition get_config (env_api_url : option string) (req : request) (s : api_state)
  : result config_response * api_state :=
  match match truthy_env env_api_url with
        | Some url => Ok url
        | None => detect_api_url req
        end with
  | Raise e => (Raise e, s)
  | Ok api_url =>
      let (current_version, s1) := get_version s in
      let '((latest, update), s2) := get_latest_version_cached current_version s1 in
      let (health, s3) := check_database_health s2 in
      (Ok {| apiUrl := api_url; version := current_version; latestVersion := latest;
             hasUpdate := update; dbStatus := status health |}, s3)
  end.

End ConfigRouter.

(** The cache never announces an update without a version to show, and a
    failed check leaves no version behind. *)
Definition cache_coherent (c : version_cache) : Prop :=
  (check_failed c = true → latest_version c = None)
  ∧ (latest_version c = None → has_update c = false).

(** Sample services: GitHub, the clock, the database and the project file
    answer as given; versions compare as equal or older. *)
Definition sample_services (github : result string) (now : Q) (db : db_outcome)
    (file : result (list (string * toml))) : ConfigServices unit :=
  {| read_pyproject := λ w, (file, w);
     get_version_from_github := λ _ _ w, (github, w);
     compare_versions := λ current latest,
       match current with
       | TomlStr v => Ok (if String.eqb v latest then 0%Z else (-1)%Z)
       | _ => Raise (Exception "expected string or bytes-like object")
       end;
     time_time := λ w, (now, w);
     health_query := λ w, (db, w) |}.

Definition sample_pyproject : list (string * toml) :=
  [("project", TomlTable [("name", TomlStr "open-notebook"); ("version", TomlStr "1.0.0")])].

Definition fresh_state : @api_state unit :=
  {| cache := initial_cache; world := tt; calls := [] |}.

Definition sample_request : request :=
  {| headers := {[ "host" := "notebook.example:8080" ]};
     url_scheme := "http";
     client := Some "10.0.0.7" |}.

Definition proxied_request : request :=
  {| headers := {[ "host" := "notebook.example"; "x-forwarded-proto" := "https" ]};
     url_scheme := "http";
     client := None |}.

(** * The page helpers ([pages/stream_app/utils.py]) *)

(** ** convert_source_references *)

(** A Python string as its code points. *)
Definition pystr := list N.

Definition codes (s : string) : pystr := Ascii.N_of_ascii <$> String.list_ascii_of_string s.

Definition LBRACKET : N := 91.
Definition RBRACKET : N := 93.
Definition COLON : N := 58.

Section SourceReferences.
(** Whether a code point beyond ASCII is matched by [\w]. *)
Variable unicode_word : N → bool.

(** The class [[\w\d]]: letters, digits and the underscore in ASCII, beyond
    it what [\w] matches (the digits of [\d] are among them). *)
Definition is_word (c : N) : bool :=
  if (c <? 128)%N then
    ((48 <=? c) && (c <=? 57) || (65 <=? c) && (c <=? 90) || (c =? 95)
     || (97 <=? c) && (c <=? 122))%N
  else unicode_word c.

(** The alternatives of the group, in the order the pattern tries them. *)
Definition reference_types : list string :=
  ["source_insight"; "note"; "source"; "source_embedding"].

(** A literal at the head of the text. *)
Fixpoint strip (literal t : pystr) : option pystr :=
  match literal, t with
  | [], _ => Some t
  | c :: literal', d :: t' => if (c =? d)%N then strip literal' t' else None
  | _ :: _, [] => None
  end.

(** [[\w\d]+\]]: as many characters of the class as possible, giving back
    one at a time until a closing bracket follows.  Returns the characters
    taken and the text after the bracket. *)
Fixpoint match_id (t : pystr) : option (pystr * pystr) :=
  match t with
  | [] => None
  | c :: t' =>
      if is_word c then
        match match_id t' with
        | Some (w, rest) => Some (c :: w, rest)
        | None =>
            match t' with
            | d :: rest => if (d =? RBRACKET)%N then Some ([c], rest) else None
            | [] => None
            end
        end
      else None
  end.

(** One alternative followed by the rest of the pattern; group 1 is the
    type, the colon and the id. *)
Definition match_type (name : string) (t : pystr) : option (pystr * pystr) :=
  match strip (codes name ++ [COLON]) t with
  | None => None
  | Some t' =>
      match match_id t' with
      | Some (w, rest) => Some (codes name ++ [COLON] ++ w, rest)
      | None => None
      end
  end.

(** The alternatives in turn: the first that lets the whole pattern match. *)
Fixpoint match_types (names : list string) (t : pystr) : option (pystr * pystr) :=
  match names with
  | [] => None
  | name :: names' =>
      match match_type name t with
      | Some m => Some m
      | None => match_types names' t
      end
  end.

(** The pattern at the head of the text: group 1 and the text after the
    match. *)
Definition match_reference (t : pystr) : option (pystr * pystr) :=
  match t with
  | c :: t' => if (c =? LBRACKET)%N then match_types reference_types t' else None
  | [] => None
  end.

(** [replace_match]: the markdown link for group 1. *)
Definition replace_match (source_ref : pystr) : pystr :=
  codes "[[" ++ source_ref ++ codes "]](/?object_id=" ++ source_ref ++ codes ")".

(** [re.sub(pattern, replace_match, text)]: from left to right, a match is
    replaced and the scan goes on behind it, any other character is copied.
    The fuel bounds the number of steps. *)
Fixpoint re_sub (fuel : nat) (t : pystr) : pystr :=
  match fuel with
  | O => t
  | S fuel' =>
      match match_reference t with
      | Some (source_ref, rest) => replace_match source_ref ++ re_sub fuel' rest
      | None =>
          match t with
          | [] => []
          | c :: t' => c :: re_sub fuel' t'
          end
      end
  end.

Definition convert_source_references (t : pystr) : pystr := re_sub (length t) t.

End SourceReferences.

(** ** check_models *)

(** What a page shows or does through Streamlit. *)
Inductive ui_event :=
| UiWrite (msg : string)
| UiError (msg : string)
| UiWarning (msg : string)
| UiCaption (msg : string).

(** The default models of [models_service.get_default_models()]. *)
Record DefaultModels := {
  default_chat_model : option string;
  default_transformation_model : option string;
  default_embedding_model : option string;
  default_speech_to_text_model : option string;
  large_context_model : option string;
}.

(** The truth value of an optional string. *)
Definition truthy (x : option string) : bool :=
  match x with
  | None => false
  | Some "" => false
  | Some _ => true
  end.

Definition mandatory_models (d : DefaultModels) : list (option string) :=
  [default_chat_model d; default_transformation_model d; default_embedding_model d].

Definition all_models (d : DefaultModels) : list (option string) :=
  mandatory_models d ++ [default_speech_to_text_model d; large_context_model d].

Definition missing_models_error : string :=
  "You are missing some default models and the app will not work as expected. Please, select them on the Models page.".

Definition missing_optional_warning : string :=
  "You are missing some important optional models. The app might not work as expected. Please, select them on the Models page.".

(** [check_models], lines 139-162, on the answer of the models service:
    what is shown, and whether [st.stop()] ended the script. *)
Definition check_models (default_models : DefaultModels)
    (only_mandatory stop_on_error : bool) : list ui_event * bool :=
  let (shown, stopped) :=
    if negb (forallb truthy (mandatory_models default_models)) then
      ([UiError missing_models_error], stop_on_error)
    else ([], false) in
  if stopped then (shown, true)
  else if negb only_mandatory then
    if negb (forallb truthy (all_models default_models)) then
      (shown ++ [UiWarning missing_optional_warning], false)
    else (shown, false)
  else (shown, false).

(** ** version_sidebar *)

(** The two keys of the session state the sidebar reads and writes. *)
Record sidebar_session := {
  session_latest_version : option string;
  session_version_check_failed : option bool;
}.

Definition sidebar_url : string := "https://www.github.com/lfnovo/open-notebook".

Definition upgrade_warning (latest_version : string) : string :=
  "New version " +:+ latest_version
  +:+ " available. [Click here for upgrade instructions](https://github.com/lfnovo/open-notebook/blob/main/docs/SETUP.md#upgrading-open-notebook)".

Definition offline_caption : string :=
  "⚠️ Could not check for updates (offline or GitHub unavailable)".

(** [pyproject["project"]["version"]] *)
Definition project_version (pyproject : list (string * toml)) : result toml :=
  match toml_assoc "project" pyproject with
  | None => Raise (KeyError "project")
  | Some (TomlTable entries) =>
      match toml_assoc "version" entries with
      | None => Raise (KeyError "version")
      | Some v => Ok v
      end
  | Some (TomlStr _) => Raise (TypeError "string indices must be integers, not 'str'")
  | Some TomlOther => Raise (TypeError "object is not subscriptable")
  end.

Section VersionSidebar.
Context {W : Type} `{ConfigServices W}.
(** [get_installed_version("open-notebook")] *)
Variable get_installed_version : W → result string * W.
(** How a version is written into the first line of the sidebar. *)
Variable show_version : toml → string.

Record sidebar_state := {
  session : sidebar_session;
  sidebar_world : W;
  sidebar_calls : list api_call;
}.

(** Lines 23-31: the installed version, or the one of the project file. *)
Definition sidebar_current_version (w : W) : result toml * W :=
  let (r, w1) := get_installed_version w in
  match r with
  | Ok v => (Ok (TomlStr v), w1)
  | Raise _ =>
      let (f, w2) := read_pyproject w1 in
      match f with
      | Raise e => (Raise e, w2)
      | Ok pyproject => (project_version pyproject, w2)
      end
  end.

(** Lines 38-45: the latest version, from GitHub unless both keys are in
    the session. *)
Definition sidebar_latest (s : sidebar_state) : result string * sidebar_state :=
  match session_latest_version (session s), session_version_check_failed (session s) with
  | Some latest, Some _ => (Ok latest, s)
  | _, _ =>
      let (r, w1) := get_version_from_github sidebar_url "main" (sidebar_world s) in
      let log := sidebar_calls s ++ [CallGitHub] in
      match r with
      | Raise e =>
          (Raise e, {| session := session s; sidebar_world := w1; sidebar_calls := log |})
      | Ok latest =>
          (Ok latest,
           {| session := {| session_latest_version := Some latest;
                            session_version_check_failed := Some false |};
              sidebar_world := w1; sidebar_calls := log |})
      end
  end.

(** Line 47: the condition of the warning. *)
Definition sidebar_outdated (current_version : toml) (latest : string)
    (s : sidebar_state) : result bool :=
  match session_version_check_failed (session s) with
  | Some true => Ok false
  | _ =>
      match compare_versions current_version latest with
      | Ok c => Ok (c <? 0)%Z
      | Raise e => Raise e
      end
  end.

Definition mark_failed (s : sidebar_state) : sidebar_state :=
  {| session := {| session_latest_version := session_latest_version (session s);
                   session_version_check_failed := Some true |};
     sidebar_world := sidebar_world s; sidebar_calls := sidebar_calls s |}.

(** [version_sidebar], lines 20-55: what the sidebar shows. *)
Definition version_sidebar (s : sidebar_state) : result (list ui_event) * sidebar_state :=
  let (cv, w1) := sidebar_current_version (sidebar_world s) in
  let s1 := {| session := session s; sidebar_world := w1; sidebar_calls := sidebar_calls s |} in
  match cv with
  | Raise e => (Raise e, s1)
  | Ok current_version =>
      let line := UiWrite ("Open Notebook: " +:+ show_version current_version) in
      let (r, s2) := sidebar_latest s1 in
      match r with
      | Raise _ => (Ok [line; UiCaption offline_caption], mark_failed s2)
      | Ok latest =>
          match sidebar_outdated current_version latest s2 with
          | Ok true => (Ok [line; UiWarning (upgrade_warning latest)], s2)
          | Ok false => (Ok [line], s2)
          | Raise _ => (Ok [line; UiCaption offline_caption], mark_failed s2)
          end
      end
  end.

End VersionSidebar.

(** ** setup_stream_state and create_session_for_notebook *)

(** A chat session as the chat service hands it over: a dictionary, of
    which the helpers read the id and the messages; whether it has other
    keys matters to its truth value only. *)
Record chat_session := {
  chat_id : option string;
  chat_messages : option (list value);
  chat_other_keys : bool;
}.

(** The truth value of a dictionary: it has a key. *)
Definition dict_truthy (cs : option chat_session) : bool :=
  match cs with
  | None => false
  | Some d => bool_decide (is_Some (chat_id d)) || bool_decide (is_Some (chat_messages d))
              || chat_other_keys d
  end.

(** One dictionary of [st.session_state]: the keys the helper reads and
    writes, and the rest, which it leaves alone.  A key that holds [None] is
    there with no value. *)
Record entry := {
  entry_context_config : option (list (string * value));
  entry_active_session : option string;
  entry_messages : option (list value);
  entry_context : option (option value);
  entry_notebook : option (option value);
  entry_rest : list (string * value);
}.

(** The dictionary lines 114-119 store for a session. *)
Definition session_entry (messages : list value) : entry :=
  {| entry_context_config := Some [];
     entry_active_session := None;
     entry_messages := Some messages;
     entry_context := Some None;
     entry_notebook := Some None;
     entry_rest := [] |}.

Record notebook := { notebook_id : option string }.

Inductive chat_call :=
| ChatGetSession (session_id : string)
| ChatGetSessions (notebook_id : string)
| ChatNow
| ChatCreateSession (notebook_id title : string).

(** The chat service and the clock. *)
Class ChatServices (W : Type) := {
  (* asyncio.run(chat_service.get_session(session_id)) *)
  chat_get_session : string → W → result (option chat_session) * W;
  (* asyncio.run(chat_service.get_sessions(notebook_id)) *)
  chat_get_sessions : string → W → result (option (list chat_session)) * W;
  (* asyncio.run(chat_service.create_session(notebook_id, title)) *)
  chat_create_session : string → string → W → result (option chat_session) * W;
  (* datetime.now().strftime("%Y-%m-%d %H:%M:%S") *)
  current_time : W → string * W;
}.

Section StreamState.
Context {W : Type} `{ChatServices W}.

(** The page's state: [st.session_state], the world outside, and the calls
    made to the chat service and the clock. *)
Record page_state := {
  session_state : gmap string entry;
  page_world : W;
  page_calls : list chat_call;
}.

Definition with_session_state (ss : gmap string entry) (s : page_state) : page_state :=
  {| session_state := ss; page_world := page_world s; page_calls := page_calls s |}.

Definition page_call {A} (c : chat_call) (op : W → A * W) (s : page_state)
  : A * page_state :=
  let (a, w) := op (page_world s) in
  (a, {| session_state := session_state s; page_world := w;
         page_calls := page_calls s ++ [c] |}).

(** [title] of line 60. *)
Definition session_title (session_name : option string) (current_time : string) : string :=
  match session_name with
  | None => "Chat Session " +:+ current_time
  | Some "" => "Chat Session " +:+ current_time
  | Some name => name
  end.

(** [create_session_for_notebook], lines 58-62. *)
Definition create_session_for_notebook (notebook_id : string) (session_name : option string)
    (s : page_state) : result (option chat_session) * page_state :=
  let (now, s1) := page_call ChatNow current_time s in
  let title := session_title session_name now in
  page_call (ChatCreateSession notebook_id title) (chat_create_session notebook_id title) s1.

Definition AssertionError (msg : string) : exn := Exception msg.

Definition set_context_config (e : entry) : entry :=
  match entry_context_config e with
  | Some _ => e
  | None =>
      {| entry_context_config := Some [];
         entry_active_session := entry_active_session e;
         entry_messages := entry_messages e;
         entry_context := entry_context e;
         entry_notebook := entry_notebook e;
         entry_rest := entry_rest e |}
  end.

Definition set_active_session (session_id : string) (e : entry) : entry :=
  {| entry_context_config := entry_context_config e;
     entry_active_session := Some session_id;
     entry_messages := entry_messages e;
     entry_context := entry_context e;
     entry_notebook := entry_notebook e;
     entry_rest := entry_rest e |}.

(** Lines 79-85: the active session, when there is one and it can be
    retrieved. *)
Definition retrieve_active (current_session_id : option string) (s : page_state)
  : option chat_session * page_state :=
  if truthy current_session_id then
    let sid := default "" current_session_id in
    let (r, s1) := page_call (ChatGetSession sid) (chat_get_session sid) s in
    match r with
    | Ok cs => (cs, s1)
    | Raise _ => (None, s1)
    end
  else (None, s).

(** Lines 88-95: without a session so far, the first of the notebook's
    sessions, or a new one when it has none. *)
Definition first_or_new (notebook_id : string) (chat : option chat_session)
    (s : page_state) : result (option chat_session) * page_state :=
  if dict_truthy chat then (Ok chat, s)
  else
    let (r, s1) :=
      page_call (ChatGetSessions notebook_id) (chat_get_sessions notebook_id) s in
    match r with
    | Raise e => (Raise e, s1)
    | Ok None => create_session_for_notebook notebook_id None s1
    | Ok (Some []) => create_session_for_notebook notebook_id None s1
    | Ok (Some (first :: _)) => (Ok (Some first), s1)
    end.

(** Lines 105-119: the messages of a session that has no dictionary yet. *)
Definition load_messages (session_id : string) (s : page_state) : page_state :=
  match session_state s !! session_id with
  | Some _ => s
  | None =>
      let (r, s1) := page_call (ChatGetSession session_id) (chat_get_session session_id) s in
      let messages :=
        match r with
        | Ok (Some full_session) => default [] (chat_messages full_session)
        | Ok None => []
        | Raise _ => []
        end in
      with_session_state (<[session_id := session_entry messages]> (session_state s1)) s1
  end.

(** [setup_stream_state], lines 65-121. *)
Definition setup_stream_state (current_notebook : option notebook) (s : page_state)
  : result chat_session * page_state :=
  match current_notebook with
  | None => (Raise (AssertionError "Current Notebook not selected properly"), s)
  | Some nb =>
      if negb (truthy (notebook_id nb)) then
        (Raise (AssertionError "Current Notebook not selected properly"), s)
      else
        let nid := default "" (notebook_id nb) in
        match session_state s !! nid with
        | None => (Raise (KeyError nid), s)
        | Some e =>
            let e1 := set_context_config e in
            let s1 := with_session_state (<[nid := e1]> (session_state s)) s in
            let (chat0, s2) := retrieve_active (entry_active_session e1) s1 in
            let (r, s3) := first_or_new nid chat0 s2 in
            match r with
            | Raise err => (Raise err, s3)
            | Ok chat =>
                if negb (dict_truthy chat) || negb (truthy (chat ≫= chat_id)) then
                  (Raise (ValueError "Problem acquiring chat session"), s3)
                else
                  let session_id := default "" (chat ≫= chat_id) in
                  let s4 :=
                    with_session_state
                      (<[nid := set_active_session session_id e1]> (session_state s3)) s3 in
                  match chat with
                  | Some cs => (Ok cs, load_messages session_id s4)
                  | None => (Raise (ValueError "Problem acquiring chat session"), s3)
                  end
            end
        end
  end.

End StreamState.

(** Only the lookups of a session, and no listing or creation. *)
Definition only_lookups (before after : list chat_call) : Prop :=
  ∃ added, after = before ++ added ∧ Forall (λ c, ∃ sid, c = ChatGetSession sid) added.

(** ** More samples *)

(** A model that embeds every text. *)
Definition plain_model (text : string) : result vector :=
  Ok [Z.of_nat (String.length text)].

Definition plain_cfg : Config :=
  {| model_lookup := Ok (Some plain_model);
     chunk_policy := λ text, [text];
     query_fault := λ _, None |}.

(** A store in which whatever has an embedding has its content. *)
Definition tidy_store : Store :=
  {| source_table := {[ "source:a" := {| full_text := Some "hello" |} ]};
     source_embedding := [ sample_chunk "source:a" (Some [1%Z]) ];
     note_table :=
       {[ "note:n" := {| note_content := Some "hi"; note_embedding := Some [4%Z] |};
          "note:plain" := {| note_content := Some "yo"; note_embedding := None |} ]};
     source_insight :=
       {[ "source_insight:i" :=
            {| insight_text := "fine"; insight_embedding := Some [5%Z] |} ]} |}.

Definition sample_insight : insight_row :=
  {| insight_text := "fine"; insight_embedding := Some [5%Z] |}.

(** A chat service that lists the given sessions and looks a session up by
    the given table. *)
Definition sample_chat (listing : option (list chat_session))
    (lookup : string → result (option chat_session)) : ChatServices unit :=
  {| chat_get_session := λ sid w, (lookup sid, w);
     chat_get_sessions := λ _ w, (Ok listing, w);
     chat_create_session := λ nid title w,
       (Ok (Some {| chat_id := Some "chat_session:new"; chat_messages := None;
                    chat_other_keys := true |}), w);
     current_time := λ w, ("2025-01-01 00:00:00", w) |}.

Definition sample_session : chat_session :=
  {| chat_id := Some "chat_session:1"; chat_messages := Some [VInt 1];
     chat_other_keys := true |}.

Definition sample_lookup (sid : string) : result (option chat_session) :=
  if String.eqb sid "chat_session:1" then Ok (Some sample_session)
  else Raise (Exception "not found").

Definition empty_entry : entry :=
  {| entry_context_config := None; entry_active_session := None;
     entry_messages := None; entry_context := None; entry_notebook := None;
     entry_rest := [] |}.

Definition sample_notebook : option notebook :=
  Some {| notebook_id := Some "notebook:1" |}.

Definition set_active_session_opt (active : option string) (e : entry) : entry :=
  {| entry_context_config := entry_context_config e;
     entry_active_session := active;
     entry_messages := entry_messages e;
     entry_context := entry_context e;
     entry_notebook := entry_notebook e;
     entry_rest := entry_rest e |}.

Definition sample_page (active : option string) : @page_state unit :=
  {| session_state :=
       {[ "notebook:1" := set_active_session_opt active empty_entry;
          "chat_session:old" := session_entry [VInt 7] ]};
     page_world := tt; page_calls := [] |}.

Definition sample_installed (w : unit) : result string * unit := (Ok "1.0.0", w).

Definition show_sample_version (v : toml) : string :=
  match v with TomlStr s => s | _ => "?" end.

Definition sample_sidebar (latest : option string) (failed : option bool)
  : @sidebar_state unit :=
  {| session := {| session_latest_version := latest;
                   session_version_check_failed := failed |};
     sidebar_world := tt; sidebar_calls := [] |}.

Definition online_services : ConfigServices unit :=
  sample_services (Ok "1.1.0") 1%Q (DbResult true) (Ok sample_pyproject).

Definition offline_services : ConfigServices unit :=
  sample_services (Raise (Exception "no route to host")) 1%Q DbTimeout
    (Raise (Exception "no such file")).

(** No code point beyond ASCII counts as a word character. *)
Definition ascii_only (c : N) : bool := false.

Definition listing_chat : ChatServices unit :=
  sample_chat (Some [sample_session]) sample_lookup.

Definition active_page : @page_state unit := sample_page (Some "chat_session:1").

Definition idle_page : @page_state unit := sample_page None.

(** * Properties *)

(** ** The loops of the rebuild command *)

Section CommandFacts.
Context {W : Type} `{Collaborators W}.

Ltac run_monad :=
  unfold rebuild_source, rebuild_note, rebuild_insight;
  unfold source_try, note_try, insight_try;
  unfold try_except, bind, call, lift, ret, raise; simpl.

Lemma attempts_app (l1 l2 : list event) :
  attempts (l1 ++ l2) = attempts l1 ++ attempts l2.
Proof. apply omap_app. Qed.

Lemma for_each_app {A S} (body : A → S → @M W S) (l1 l2 : list A) (s : S) st :
  for_each body (l1 ++ l2) s st
  = bind (for_each body l1 s) (for_each body l2) st.
Proof.
  revert s st. induction l1 as [|x l1 IH]; intros s st; simpl.
  - reflexivity.
  - unfold bind in *. destruct (body x s st) as [[s1|e] st1].
    + apply IH.
    + reflexivity.
Qed.

Lemma for_each_map {A B S} (f : A → B) (body : B → S → @M W S) (l : list A) (s : S) st :
  for_each body (f <$> l) s st = for_each (λ x, body (f x)) l s st.
Proof.
  revert s st. induction l as [|x l IH]; intros s st; simpl; [reflexivity|].
  unfold bind. destruct (body (f x) s st) as [[s1|e] st1]; [apply IH | reflexivity].
Qed.

(** The three loops are one pass over the work list. *)
Lemma process_items_work (m : Model) (its : items) (c : counters) st :
  process_items m its c st = for_each (process_item m) (work its) c st.
Proof.
  unfold process_items, work. rewrite for_each_app. unfold bind.
  rewrite for_each_map.
  change (for_each (λ x, process_item m (ItSource, x))) with (for_each rebuild_source).
  destruct (for_each rebuild_source (sources its) c st) as [[c1|e] st1]; [|reflexivity].
  rewrite for_each_app. unfold bind. rewrite for_each_map.
  change (for_each (λ x, process_item m (ItNote, x))) with (for_each rebuild_note).
  destruct (for_each rebuild_note (notes its) c1 st1) as [[c2|e] st2]; [|reflexivity].
  rewrite for_each_map. reflexivity.
Qed.

Lemma incr_failed_sum (c : counters) :
  c_processed_items (incr_failed c) + c_failed_items (incr_failed c)
  = S (c_processed_items c + c_failed_items c).
Proof. unfold c_processed_items; simpl; lia. Qed.

Lemma incr_processed_sum (t : item_type) (c : counters) :
  c_processed_items (incr_processed t c) + c_failed_items (incr_processed t c)
  = S (c_processed_items c + c_failed_items c).
Proof. destruct t; unfold c_processed_items; simpl; lia. Qed.

(** One iteration always returns; it counts the item as failed or as
    processed, and as failed whenever the item is absent or the try block
    raises.  Its one lookup is the only lookup it adds to the log. *)
Lemma process_item_returns (m : Model) (it : item_type * string) (c : counters) st :
  ∃ c' st',
    process_item m it c st = (Ok c', st')
    ∧ (c' = incr_failed c ∨ c' = incr_processed it.1 c)
    ∧ (item_absent it st.1 → c' = incr_failed c)
    ∧ (∀ e st'', item_try m it c st = (Raise e, st'') → c' = incr_failed c)
    ∧ attempts st'.2 = attempts st.2 ++ [it].
Proof.
  destruct it as [t id], st as [w log].
  unfold process_item, item_try, item_absent; destruct t; simpl; run_monad.
  - destruct (Source_get id w) as [[[src|]|e] w1]; simpl.
    + destruct (Source_vectorize src w1) as [[[]|e] w2]; simpl;
        eexists _, _; (split; [reflexivity|]); simpl;
        rewrite !attempts_app; simpl; rewrite ?app_nil_r;
        repeat split; auto; try discriminate; try congruence.
    + eexists _, _; (split; [reflexivity|]); simpl;
        rewrite !attempts_app; simpl; repeat split; auto.
    + eexists _, _; (split; [reflexivity|]); simpl;
        rewrite !attempts_app; simpl; repeat split; auto.
  - destruct (Note_get id w) as [[[nt|]|e] w1]; simpl.
    + destruct (Note_save nt w1) as [[[]|e] w2]; simpl;
        eexists _, _; (split; [reflexivity|]); simpl;
        rewrite !attempts_app; simpl; rewrite ?app_nil_r;
        repeat split; auto; try discriminate; try congruence.
    + eexists _, _; (split; [reflexivity|]); simpl;
        rewrite !attempts_app; simpl; repeat split; auto.
    + eexists _, _; (split; [reflexivity|]); simpl;
        rewrite !attempts_app; simpl; repeat split; auto.
  - destruct (SourceInsight_get id w) as [[[ins|]|e] w1]; simpl.
    + destruct (aembed m [insight_content ins] w1) as [[[|v vs]|e] w2]; simpl.
      * eexists _, _; (split; [reflexivity|]); simpl;
          rewrite !attempts_app; simpl; rewrite ?app_nil_r;
          repeat split; auto; try discriminate.
      * destruct (repo_query (QUpdateInsight id v) w2) as [[r|e] w3]; simpl;
          eexists _, _; (split; [reflexivity|]); simpl;
          rewrite !attempts_app; simpl; rewrite ?app_nil_r;
          repeat split; auto; try discriminate; try congruence.
      * eexists _, _; (split; [reflexivity|]); simpl;
          rewrite !attempts_app; simpl; rewrite ?app_nil_r;
          repeat split; auto; try discriminate.
    + eexists _, _; (split; [reflexivity|]); simpl;
        rewrite !attempts_app; simpl; repeat split; auto.
    + eexists _, _; (split; [reflexivity|]); simpl;
        rewrite !attempts_app; simpl; repeat split; auto.
Qed.

(** A pass over a list of items always returns, has counted every item of
    the list exactly once, and has looked them up in the order of the list. *)
Lemma for_each_process (m : Model) (l : list (item_type * string)) (c : counters) st :
  ∃ c' st',
    for_each (process_item m) l c st = (Ok c', st')
    ∧ c_processed_items c' + c_failed_items c'
      = c_processed_items c + c_failed_items c + length l
    ∧ attempts st'.2 = attempts st.2 ++ l.
Proof.
  revert c st. induction l as [|it l IH]; intros c st; simpl.
  - exists c, st. unfold ret. rewrite app_nil_r. split; [reflexivity|]. split; [lia|reflexivity].
  - destruct (process_item_returns m it c st) as (c1 & st1 & Hrun & Hc & _ & _ & Hlog).
    destruct (IH c1 st1) as (c2 & st2 & Hrest & Hsum & Hlog2).
    exists c2, st2. unfold bind. rewrite Hrun. split; [exact Hrest|]. split.
    + rewrite Hsum. destruct Hc as [-> | ->].
      * rewrite incr_failed_sum. lia.
      * rewrite incr_processed_sum. lia.
    + rewrite Hlog2, Hlog, <- app_assoc. reflexivity.
Qed.

Lemma work_length (its : items) : length (work its) = total its.
Proof. unfold work, total. rewrite !length_app, !length_fmap. lia. Qed.

Ltac step_query :=
  match goal with
  | |- context [repo_query ?q ?w] =>
      destruct (repo_query q w) as [[?|?] ?]; simpl
  | |- context [comprehension ?f ?l] =>
      destruct (comprehension f l) as [?|?]; simpl
  end.

(** Collecting looks no item up. *)
Lemma collect_attempts (md : mode) (b1 b2 b3 : bool) st r st' :
  collect_items_for_rebuild md b1 b2 b3 st = (r, st') →
  attempts st'.2 = attempts st.2.
Proof.
  destruct st as [w log].
  unfold collect_items_for_rebuild, ids_of_rows, bind, call, lift, ret.
  destruct b1, b2, b3, md; simpl; repeat step_query;
    intros [= <- <-]; simpl; rewrite ?attempts_app; simpl;
    rewrite ?app_nil_r; reflexivity.
Qed.

End CommandFacts.

(** ** The rebuild command *)

Section RebuildFacts.
Context {W : Type} `{Collaborators W}.

(** The command never raises: whatever escapes the body is turned into a
    failure report carrying the exception's text. *)
Lemma rebuild_returns (input_data : RebuildEmbeddingsInput) st :
  match rebuild_embeddings_body input_data st with
  | (Ok out, st') => rebuild_embeddings_command input_data st = (Ok out, st')
  | (Raise e, st') =>
      rebuild_embeddings_command input_data st = (Ok (failure_report (str_exn e)), st')
  end.
Proof.
  unfold rebuild_embeddings_command, try_except.
  destruct (rebuild_embeddings_body input_data st) as [[out|e] st']; reflexivity.
Qed.

(** Past the model check and the collection, the body is the pass over the
    work list followed by the success report. *)
Lemma rebuild_body_run (input_data : RebuildEmbeddingsInput) w w1 log m its st2 :
  get_embedding_model w = (Ok (Some m), w1) →
  collect_for input_data (w1, log ++ [EvGetModel]) = (Ok its, st2) →
  ∃ c st',
    for_each (process_item m) (work its) counters_init st2 = (Ok c, st')
    ∧ c_processed_items c + c_failed_items c = total its
    ∧ attempts st'.2 = attempts log ++ work its
    ∧ rebuild_embeddings_body input_data (w, log)
      = (Ok {| success := true; total_items := total its;
               processed_items := c_processed_items c;
               failed_items := c_failed_items c;
               sources_processed := c_sources_processed c;
               notes_processed := c_notes_processed c;
               insights_processed := c_insights_processed c;
               error_message := None |}, st').
Proof.
  intros Hm Hc.
  destruct (for_each_process m (work its) counters_init st2) as (c & st' & Hrun & Hsum & Hlog).
  rewrite work_length in Hsum. simpl in Hsum.
  pose proof (collect_attempts _ _ _ _ _ _ _ Hc) as Hatt. simpl in Hatt.
  rewrite attempts_app in Hatt. simpl in Hatt. rewrite app_nil_r in Hatt.
  exists c, st'. split; [exact Hrun|]. split; [exact Hsum|].
  split; [rewrite Hlog, Hatt; reflexivity|].
  unfold rebuild_embeddings_body, bind at 1, call. simpl. rewrite Hm. simpl.
  unfold bind. unfold collect_for in Hc. rewrite Hc.
  fold (total its). destruct (Nat.eqb (total its) 0) eqn:Hz.
  - apply Nat.eqb_eq in Hz.
    assert (work its = []) as Hw by (apply length_zero_iff_nil; rewrite work_length; exact Hz).
    rewrite Hw in Hrun. simpl in Hrun. unfold ret in Hrun.
    injection Hrun as <- <-. unfold ret. rewrite Hz. reflexivity.
  - rewrite process_items_work, Hrun. reflexivity.
Qed.

(** C2: when no embedding model is configured the rebuild fails before any
    item is processed: the command returns a failure report carrying the
    no-model message, with total, processed and failed all zero, after the
    model lookup alone: no query was sent and no item was looked up. *)
Theorem rebuild_without_model_fails_fast
    (input_data : RebuildEmbeddingsInput) (w w1 : W) (log : list event) :
  get_embedding_model w = (Ok None, w1) →
  rebuild_embeddings_command input_data (w, log)
    = (Ok (failure_report no_model_message), (w1, log ++ [EvGetModel]))
  ∧ total_items (failure_report no_model_message) = 0
  ∧ processed_items (failure_report no_model_message) = 0
  ∧ failed_items (failure_report no_model_message) = 0
  ∧ attempts (log ++ [EvGetModel]) = attempts log.
Proof.
  intros Hm. split; [|repeat split].
  - unfold rebuild_embeddings_command, rebuild_embeddings_body, try_except, bind, call.
    simpl. rewrite Hm. reflexivity.
  - rewrite attempts_app. simpl. apply app_nil_r.
Qed.

(** C3: a run whose collection yields no item at all finishes successfully:
    the report has success set, total_items = processed_items = failed_items
    = 0 and no error message. *)
Theorem rebuild_zero_items_completes
    (input_data : RebuildEmbeddingsInput) (w w1 : W) (log : list event)
    (m : Model) (its : items) st2 :
  get_embedding_model w = (Ok (Some m), w1) →
  collect_for input_data (w1, log ++ [EvGetModel]) = (Ok its, st2) →
  total its = 0 →
  rebuild_embeddings_command input_data (w, log) = (Ok empty_report, st2)
  ∧ success empty_report = true
  ∧ total_items empty_report = 0
  ∧ processed_items empty_report = 0
  ∧ failed_items empty_report = 0
  ∧ error_message empty_report = None.
Proof.
  intros Hm Hc Hz. split; [|repeat split].
  unfold rebuild_embeddings_command, rebuild_embeddings_body, try_except, bind at 1, call.
  simpl. rewrite Hm. simpl. unfold bind. unfold collect_for in Hc. rewrite Hc.
  fold (total its). rewrite Hz. reflexivity.
Qed.

(** C4: past pre-flight and collection, every iteration returns and counts
    its item as failed or as processed (as failed when the item is absent or
    its try block raises), and the pass goes on with the items that remain;
    after any number k of iterations processed + failed = k ≤ total, and the
    report has processed_items + failed_items = total_items. *)
Theorem rebuild_counters_consistent
    (input_data : RebuildEmbeddingsInput) (w w1 : W) (log : list event)
    (m : Model) (its : items) st2 :
  get_embedding_model w = (Ok (Some m), w1) →
  collect_for input_data (w1, log ++ [EvGetModel]) = (Ok its, st2) →
  (∀ it c st, ∃ c' st',
      process_item m it c st = (Ok c', st')
      ∧ (c' = incr_failed c ∨ c' = incr_processed it.1 c)
      ∧ (item_absent it st.1 → c' = incr_failed c)
      ∧ (∀ e st'', item_try m it c st = (Raise e, st'') → c' = incr_failed c))
  ∧ (∀ k : nat, (k ≤ total its)%nat → ∃ ck stk,
      for_each (process_item m) (take k (work its)) counters_init st2 = (Ok ck, stk)
      ∧ c_processed_items ck + c_failed_items ck = k
      ∧ (c_processed_items ck + c_failed_items ck ≤ total its)%nat
      ∧ attempts stk.2 = attempts log ++ take k (work its)
      ∧ process_items m its counters_init st2
        = for_each (process_item m) (drop k (work its)) ck stk)
  ∧ (∃ out st',
      rebuild_embeddings_command input_data (w, log) = (Ok out, st')
      ∧ success out = true
      ∧ total_items out = total its
      ∧ processed_items out + failed_items out = total_items out
      ∧ attempts st'.2 = attempts log ++ work its).
Proof.
  intros Hm Hc. split; [|split].
  - intros it c st.
    destruct (process_item_returns m it c st) as (c' & st' & Hrun & Hc' & Habs & Hraise & _).
    exists c', st'. auto.
  - intros k Hk.
    destruct (for_each_process m (take k (work its)) counters_init st2)
      as (ck & stk & Hrun & Hsum & Hlog).
    rewrite length_take, work_length in Hsum. simpl in Hsum.
    pose proof (collect_attempts _ _ _ _ _ _ _ Hc) as Hatt. simpl in Hatt.
    rewrite attempts_app in Hatt. simpl in Hatt. rewrite app_nil_r in Hatt.
    exists ck, stk. split; [exact Hrun|]. split; [lia|]. split; [lia|].
    split; [rewrite Hlog, Hatt; reflexivity|].
    rewrite process_items_work. rewrite <- (take_drop k (work its)) at 1.
    rewrite for_each_app. unfold bind. rewrite Hrun. reflexivity.
  - destruct (rebuild_body_run input_data w w1 log m its st2 Hm Hc)
      as (c & st' & _ & Hsum & Hlog & Hbody).
    pose proof (rebuild_returns input_data (w, log)) as Hret. rewrite Hbody in Hret.
    eexists _, st'. split; [exact Hret|]. simpl. auto.
Qed.

(** C10: the command always returns a report, and a report with success
    unset has total_items, processed_items, failed_items and the three
    per-type counters all equal to zero. *)
Theorem rebuild_failure_reports_zero (input_data : RebuildEmbeddingsInput) st :
  ∃ out st',
    rebuild_embeddings_command input_data st = (Ok out, st')
    ∧ (success out = false →
       total_items out = 0 ∧ processed_items out = 0 ∧ failed_items out = 0
       ∧ sources_processed out = 0 ∧ notes_processed out = 0
       ∧ insights_processed out = 0).
Proof.
  pose proof (rebuild_returns input_data st) as Hret.
  destruct (rebuild_embeddings_body input_data st) as [[out|e] st'] eqn:Hbody.
  - exists out, st'. split; [exact Hret|]. intros Hfail.
    destruct st as [w log].
    unfold rebuild_embeddings_body, bind at 1, call in Hbody. simpl in Hbody.
    destruct (get_embedding_model w) as [[[m|]|e] w1] eqn:Hm;
      unfold raise in Hbody; simpl in Hbody; try discriminate.
    destruct (collect_for input_data (w1, log ++ [EvGetModel])) as [[its|e] st2] eqn:Hc.
    + destruct (rebuild_body_run input_data w w1 log m its st2 Hm Hc)
        as (c & st3 & _ & _ & _ & Hbody').
      unfold rebuild_embeddings_body, bind at 1, call in Hbody'. simpl in Hbody'.
      rewrite Hm in Hbody'. simpl in Hbody'. rewrite Hbody in Hbody'.
      injection Hbody' as -> _. discriminate Hfail.
    + unfold bind, collect_for in *. rewrite Hc in Hbody. discriminate.
  - eexists _, st'. split; [exact Hret|]. simpl. intros _. repeat split.
Qed.

(** C8, as the code has it: a report with success set never carries an error
    message, whatever the failed count; a report with success unset carries
    the text of the exception that escaped the body, which is the no-model
    message, a non-empty text, when no embedding model is configured. *)
Theorem rebuild_error_message_follows_outcome (input_data : RebuildEmbeddingsInput) st :
  ∃ out st',
    rebuild_embeddings_command input_data st = (Ok out, st')
    ∧ (success out = true → error_message out = None)
    ∧ (success out = false →
       ∃ e, rebuild_embeddings_body input_data st = (Raise e, st')
            ∧ error_message out = Some (str_exn e))
    ∧ ((get_embedding_model st.1).1 = Ok None →
       success out = false
       ∧ error_message out = Some no_model_message
       ∧ no_model_message ≠ "").
Proof.
  pose proof (rebuild_returns input_data st) as Hret.
  destruct (rebuild_embeddings_body input_data st) as [[out|e] st'] eqn:Hbody.
  - exists out, st'. split; [exact Hret|].
    destruct st as [w log].
    unfold rebuild_embeddings_body, bind at 1, call in Hbody. simpl in Hbody.
    destruct (get_embedding_model w) as [[[m|]|e] w1] eqn:Hm;
      unfold raise in Hbody; simpl in Hbody; try discriminate.
    destruct (collect_for input_data (w1, log ++ [EvGetModel])) as [[its|e] st2] eqn:Hc.
    + destruct (rebuild_body_run input_data w w1 log m its st2 Hm Hc)
        as (c & st3 & _ & _ & _ & Hbody').
      unfold rebuild_embeddings_body, bind at 1, call in Hbody'. simpl in Hbody'.
      rewrite Hm in Hbody'. simpl in Hbody'. rewrite Hbody in Hbody'.
      injection Hbody' as -> _. simpl.
      split; [reflexivity|]. split; [discriminate|].
      intros Hnone. simpl in Hnone. rewrite Hm in Hnone. discriminate Hnone.
    + unfold bind, collect_for in *. rewrite Hc in Hbody. discriminate.
  - eexists _, st'. split; [exact Hret|]. simpl.
    split; [discriminate|]. split; [intros _; exists e; auto|].
    intros Hnone. destruct st as [w log].
    unfold rebuild_embeddings_body, bind, call, raise in Hbody. simpl in Hbody, Hnone.
    destruct (get_embedding_model w) as [r w1]. simpl in Hnone. subst r.
    injection Hbody as <- _. simpl. repeat split. discriminate.
Qed.

(** C1, as the code has it: the command does not inspect the selection.  With
    all three flags false and a model configured it sends no query, looks no
    item up and returns the all-zero success report; the empty selection is
    held back by the rebuild page, whose start button is then disabled. *)
Theorem rebuild_empty_selection_completes
    (input_data : RebuildEmbeddingsInput) (w w1 : W) (log : list event) (m : Model) :
  include_sources input_data = false →
  include_notes input_data = false →
  include_insights input_data = false →
  get_embedding_model w = (Ok (Some m), w1) →
  rebuild_embeddings_command input_data (w, log)
    = (Ok empty_report, (w1, log ++ [EvGetModel]))
  ∧ success empty_report = true
  ∧ error_message empty_report = None
  ∧ start_rebuild_disabled (include_sources input_data) (include_notes input_data)
      (include_insights input_data) = true.
Proof.
  intros Hs Hn Hi Hm. rewrite Hs, Hn, Hi. repeat split.
  unfold rebuild_embeddings_command, rebuild_embeddings_body, try_except, bind at 1, call.
  simpl. rewrite Hm. simpl.
  unfold bind, collect_items_for_rebuild, bind, ret. rewrite Hs, Hn, Hi. reflexivity.
Qed.

End RebuildFacts.

(** ** The single-item command *)

Lemma prefix_append (s t : string) : String.prefix s (s +:+ t) = true.
Proof.
  induction s as [|a s IH]; simpl.
  - destruct t; reflexivity.
  - destruct (Ascii.ascii_dec a a) as [_|Hne]; [exact IH | contradiction].
Qed.

Lemma contains_prefix (needle hay : string) :
  String.prefix needle hay = true → contains needle hay = true.
Proof.
  intros Hp. destruct hay; [exact Hp|].
  cbn [contains]. rewrite Hp. reflexivity.
Qed.

Lemma contains_append (needle before hay : string) :
  contains needle hay = true → contains needle (before +:+ hay) = true.
Proof.
  intros Hc. induction before as [|a before IH].
  - exact Hc.
  - change (String a before +:+ hay) with (String a (before +:+ hay)).
    cbn [contains]. rewrite IH. apply orb_true_r.
Qed.

Lemma not_found_message_mentions (kind id : string) :
  contains "not found" (not_found_message kind id) = true
  ∧ contains id (not_found_message kind id) = true.
Proof.
  unfold not_found_message. split.
  - do 3 apply contains_append. reflexivity.
  - do 2 apply contains_append. apply contains_prefix, prefix_append.
Qed.

Section EmbedFacts.
Context {W : Type} `{Collaborators W}.

(** C9, as the code has it: for a note whose lookup answers that it is
    absent, the command returns a report with success unset and
    chunks_created = 0; when an embedding model is configured the error
    message is the not-found text naming that id.  (The model is checked
    first; without one the message is the one of that check.) *)
Theorem embed_absent_note_reports_not_found
    (id : string) (w w1 w2 : W) (log : list event) (r : result (option Model)) :
  get_embedding_model w = (r, w1) →
  Note_get id w1 = (Ok None, w2) →
  ∃ out st',
    embed_single_item_command (note_request id) (w, log)
      = (Ok out, st')
    ∧ es_success out = false
    ∧ chunks_created out = 0%Z
    ∧ (∀ m, r = Ok (Some m) →
         es_error_message out = Some (not_found_message "Note" id)
         ∧ contains "not found" (not_found_message "Note" id) = true
         ∧ contains id (not_found_message "Note" id) = true
         ∧ st' = (w2, log ++ [EvGetModel] ++ [EvGet ItNote id])).
Proof.
  intros Hm Hget.
  unfold embed_single_item_command, embed_single_item_body, try_except, bind, call, raise,
    note_request.
  simpl. rewrite Hm. destruct r as [[m|]|e]; simpl.
  - rewrite Hget. simpl. eexists _, _. split; [reflexivity|]. simpl.
    split; [reflexivity|]. split; [reflexivity|]. intros m' _.
    destruct (not_found_message_mentions "Note" id) as [Hnf Hid].
    rewrite <- app_assoc. auto.
  - eexists _, _. split; [reflexivity|]. simpl. repeat split; discriminate.
  - eexists _, _. split; [reflexivity|]. simpl. repeat split; discriminate.
Qed.

End EmbedFacts.

(** ** The collector over the store *)

Section StoreFacts.
Variable cfg : Config.

Abbreviation collect := (@collect_items_for_rebuild Store (store_env cfg)).
Abbreviation embed_single := (@embed_single_item_command Store (store_env cfg)).

Lemma comprehension_fmap {A B C} (f : B → result C) (g : A → B) (h : A → C) (l : list A) :
  (∀ x, f (g x) = Ok (h x)) → comprehension f (g <$> l) = Ok (h <$> l).
Proof.
  intros Hf. induction l as [|x l IH]; [reflexivity|].
  rewrite !fmap_cons. cbn [comprehension]. rewrite Hf, IH. reflexivity.
Qed.

Lemma comprehension_select_id {R} (f : value → result string)
    (cond : R → bool) (table : gmap string R) :
  (∀ k, f (VDict [("id", VId k)]) = Ok k) →
  comprehension f (select_id cond table) = Ok (selected_ids cond table).
Proof.
  intros Hf. unfold select_id, selected_ids.
  apply comprehension_fmap. intros kv. apply Hf.
Qed.

Lemma fmap_str_VId (f : value → string) (l : list string) :
  (∀ k, f (VId k) = k) → f <$> (VId <$> l) = l.
Proof.
  intros Hf. induction l as [|k l IH]; [reflexivity|].
  rewrite !fmap_cons, Hf, IH. reflexivity.
Qed.

Lemma selected_ids_NoDup {R} (cond : R → bool) (table : gmap string R) :
  NoDup (selected_ids cond table).
Proof.
  unfold selected_ids.
  eapply sublist_NoDup; [apply (NoDup_fst_map_to_list table)|].
  apply fmap_sublist, sublist_filter.
Qed.

Lemma elem_of_selected_ids {R} (cond : R → bool) (table : gmap string R) (id : string) :
  id ∈ selected_ids cond table ↔ ∃ r, table !! id = Some r ∧ cond r = true.
Proof.
  unfold selected_ids. rewrite list_elem_of_fmap. split.
  - intros ([k r] & -> & Hin). apply list_elem_of_filter in Hin as [Hc Hin].
    apply elem_of_map_to_list in Hin. exists r. auto.
  - intros (r & Hl & Hc). exists (id, r). split; [reflexivity|].
    apply list_elem_of_filter. split; [exact Hc|]. apply elem_of_map_to_list, Hl.
Qed.

Lemma has_embedding_true (e : option vector) :
  has_embedding e = true ↔ ∃ v, e = Some v ∧ v ≠ [].
Proof.
  destruct e as [[|x v]|]; simpl; split; try discriminate.
  - intros (v & [= <-] & Hne). contradiction.
  - intros _. eexists. split; [reflexivity|discriminate].
  - reflexivity.
  - intros (v & Hv & _). discriminate.
Qed.

Lemma elem_of_embedded_sources (chunks : list chunk_row) (id : string) :
  id ∈ embedded_sources chunks
  ↔ ∃ ch v, ch ∈ chunks ∧ chunk_source ch = id ∧ chunk_embedding ch = Some v ∧ v ≠ [].
Proof.
  unfold embedded_sources. rewrite elem_of_remove_dups, list_elem_of_fmap. split.
  - intros (ch & -> & Hin). apply list_elem_of_filter in Hin as [He Hin].
    apply has_embedding_true in He as (v & Hv & Hne). exists ch, v. auto.
  - intros (ch & v & Hin & <- & Hv & Hne). exists ch. split; [reflexivity|].
    apply list_elem_of_filter. split; [|exact Hin].
    apply has_embedding_true. exists v. auto.
Qed.

Ltac step_store_query :=
  match goal with
  | |- context [query_fault cfg ?q] => destruct (query_fault cfg q); simpl
  | |- context [comprehension ?f (select_id ?c ?t)] =>
      rewrite (comprehension_select_id f c t) by (intros; reflexivity); simpl
  end.

(** The collector is read-only, and what it returns is [store_items]. *)
Lemma collect_store_items (md : mode) (b1 b2 b3 : bool) st log its st' :
  collect md b1 b2 b3 (st, log) = (Ok its, st') →
  its = store_items md b1 b2 b3 st ∧ st'.1 = st.
Proof.
  unfold collect_items_for_rebuild, store_items, ids_of_rows, lift, bind, call, ret.
  destruct b1, b2, b3, md; simpl; unfold store_query, eval_query;
    repeat step_store_query; intros [=]; subst; simpl;
    rewrite ?fmap_str_VId by reflexivity; split; reflexivity.
Qed.

(** Without a failing query the collector returns. *)
Lemma collect_returns (md : mode) (b1 b2 b3 : bool) st log :
  (∀ q, query_fault cfg q = None) →
  ∃ log', collect md b1 b2 b3 (st, log) = (Ok (store_items md b1 b2 b3 st), (st, log')).
Proof.
  intros Hq.
  unfold collect_items_for_rebuild, store_items, ids_of_rows, lift, bind, call, ret.
  destruct b1, b2, b3, md; simpl; unfold store_query, eval_query;
    rewrite ?Hq; simpl; repeat step_store_query;
    rewrite ?fmap_str_VId by reflexivity; eexists; reflexivity.
Qed.

Lemma store_items_NoDup (md : mode) (b1 b2 b3 : bool) (st : Store) :
  NoDup (sources (store_items md b1 b2 b3 st))
  ∧ NoDup (notes (store_items md b1 b2 b3 st))
  ∧ NoDup (insights (store_items md b1 b2 b3 st)).
Proof.
  unfold store_items, embedded_sources; simpl.
  destruct b1, b2, b3, md; repeat split;
    first [apply NoDup_nil_2 | apply selected_ids_NoDup | apply NoDup_remove_dups].
Qed.

(** C6: in mode existing, what the collector returns holds, for each selected
    type, exactly the ids with an embedding: for sources the ids named by at
    least one chunk whose embedding is a non-empty vector, for notes and
    insights the ids of the rows whose embedding field is present and
    non-empty; a type that is not selected yields the empty list, no list
    repeats an id, and the store is left as it was. *)
Theorem collect_existing_selects_embedded
    (b1 b2 b3 : bool) (st : Store) (log : list event) (its : items) st' :
  collect existing b1 b2 b3 (st, log) = (Ok its, st') →
  (∀ id, id ∈ sources its ↔
     b1 = true ∧ ∃ ch v, ch ∈ source_embedding st ∧ chunk_source ch = id
                          ∧ chunk_embedding ch = Some v ∧ v ≠ [])
  ∧ (∀ id, id ∈ notes its ↔
     b2 = true ∧ ∃ r v, note_table st !! id = Some r
                         ∧ note_embedding r = Some v ∧ v ≠ [])
  ∧ (∀ id, id ∈ insights its ↔
     b3 = true ∧ ∃ r v, source_insight st !! id = Some r
                         ∧ insight_embedding r = Some v ∧ v ≠ [])
  ∧ (b1 = false → sources its = [])
  ∧ (b2 = false → notes its = [])
  ∧ (b3 = false → insights its = [])
  ∧ NoDup (sources its) ∧ NoDup (notes its) ∧ NoDup (insights its)
  ∧ st'.1 = st.
Proof.
  intros Hc. apply collect_store_items in Hc as [-> Hst].
  destruct (store_items_NoDup existing b1 b2 b3 st) as (Hd1 & Hd2 & Hd3).
  split; [|split; [|split; [|split; [|split; [|split; [|auto]]]]]]; simpl.
  - intros id. split.
    + destruct b1; [|intros Hin; inversion Hin].
      intros Hin. apply elem_of_embedded_sources in Hin. auto.
    + intros [Hb Hex]. subst b1. apply elem_of_embedded_sources. exact Hex.
  - intros id. split.
    + destruct b2; [|intros Hin; inversion Hin].
      intros Hin. apply elem_of_selected_ids in Hin as (r & Hl & He).
      apply has_embedding_true in He as (v & Hv & Hne). split; [reflexivity|].
      exists r, v. auto.
    + intros [Hb (r & v & Hl & Hv & Hne)]. subst b2. apply elem_of_selected_ids.
      exists r. split; [exact Hl|]. apply has_embedding_true. exists v. auto.
  - intros id. split.
    + destruct b3; [|intros Hin; inversion Hin].
      intros Hin. apply elem_of_selected_ids in Hin as (r & Hl & He).
      apply has_embedding_true in He as (v & Hv & Hne). split; [reflexivity|].
      exists r, v. auto.
    + intros [Hb (r & v & Hl & Hv & Hne)]. subst b3. apply elem_of_selected_ids.
      exists r. split; [exact Hl|]. apply has_embedding_true. exists v. auto.
  - intros ->. reflexivity.
  - intros ->. reflexivity.
  - intros ->. reflexivity.
Qed.

(** ** Embedding one source over the store *)

Lemma comprehension_length {A B} (f : A → result B) (l : list A) (ys : list B) :
  comprehension f l = Ok ys → length ys = length l.
Proof.
  revert ys. induction l as [|x l IH]; intros ys; simpl.
  - intros [= <-]. reflexivity.
  - destruct (f x) as [y|e]; [|discriminate].
    destruct (comprehension f l) as [ys'|e]; [|discriminate].
    intros [= <-]. simpl. rewrite (IH ys' eq_refl). reflexivity.
Qed.

Lemma filter_other_new_chunks (id : string) (tvs : list (string * vector)) :
  filter (λ r, chunk_source r ≠ id) (new_chunk id <$> tvs) = [].
Proof.
  induction tvs as [|tv tvs IH]; [reflexivity|].
  rewrite fmap_cons, filter_cons_False; [exact IH|].
  simpl. intros Hne. apply Hne. reflexivity.
Qed.

Lemma filter_own_new_chunks (id : string) (tvs : list (string * vector)) :
  filter (λ r, chunk_source r = id) (new_chunk id <$> tvs) = new_chunk id <$> tvs.
Proof.
  induction tvs as [|tv tvs IH]; [reflexivity|].
  rewrite fmap_cons, filter_cons_True; [|reflexivity]. rewrite IH. reflexivity.
Qed.

Lemma filter_own_others (id : string) (chunks : list chunk_row) :
  filter (λ r, chunk_source r = id) (filter (λ r, chunk_source r ≠ id) chunks) = [].
Proof.
  induction chunks as [|r chunks IH]; [reflexivity|].
  destruct (decide (chunk_source r = id)) as [Heq|Hne].
  - rewrite (filter_cons_False _ r chunks); [exact IH|]. intros Hn. exact (Hn Heq).
  - rewrite (filter_cons_True _ r chunks); [|exact Hne].
    rewrite filter_cons_False; [exact IH|exact Hne].
Qed.

Lemma filter_others_twice (id : string) (chunks : list chunk_row) :
  filter (λ r, chunk_source r ≠ id) (filter (λ r, chunk_source r ≠ id) chunks)
  = filter (λ r, chunk_source r ≠ id) chunks.
Proof.
  induction chunks as [|r chunks IH]; [reflexivity|].
  destruct (decide (chunk_source r = id)) as [Heq|Hne].
  - rewrite (filter_cons_False _ r chunks); [exact IH|]. intros Hn. exact (Hn Heq).
  - rewrite (filter_cons_True _ r chunks); [|exact Hne].
    rewrite filter_cons_True; [|exact Hne]. rewrite IH. reflexivity.
Qed.

(** Replacing the chunks of a source a second time by the same new chunks
    changes nothing. *)
Lemma replace_chunks_twice (id : string) (tvs : list (string * vector)) (st : Store) :
  replace_chunks id (new_chunk id <$> tvs) (replace_chunks id (new_chunk id <$> tvs) st)
  = replace_chunks id (new_chunk id <$> tvs) st.
Proof.
  unfold replace_chunks; simpl. f_equal.
  rewrite filter_app, filter_others_twice, filter_other_new_chunks, app_nil_r.
  reflexivity.
Qed.

(** After the replacement the source has the new chunks and no other. *)
Lemma count_chunks_replaced (id : string) (tvs : list (string * vector))
    (chunks : list chunk_row) :
  count_chunks id (filter (λ r, chunk_source r ≠ id) chunks ++ (new_chunk id <$> tvs))
  = length tvs.
Proof.
  unfold count_chunks.
  rewrite filter_app, filter_own_others, filter_own_new_chunks. simpl.
  apply length_fmap.
Qed.

Lemma replace_chunks_count (id : string) (tvs : list (string * vector)) (st : Store) :
  count_chunks id (source_embedding (replace_chunks id (new_chunk id <$> tvs) st))
  = length tvs.
Proof. apply count_chunks_replaced. Qed.

Lemma read_count_answer (n : nat) :
  @read_count Store (store_env cfg) (if Nat.eqb n 0 then [] else [VInt (Z.of_nat n)])
  = Ok (Z.of_nat n).
Proof. destruct n; reflexivity. Qed.

(** A run of the command on a source that ends in success: what must have
    been the case, and what it left behind. *)
Lemma embed_source_success (id : string) st log out st1 log1 :
  embed_single (source_request id) (st, log) = (Ok out, (st1, log1)) →
  es_success out = true →
  ∃ row m vectors,
    source_table st !! id = Some row
    ∧ model_lookup cfg = Ok (Some m)
    ∧ comprehension m (source_texts cfg row) = Ok vectors
    ∧ query_fault cfg (QCountChunks id) = None
    ∧ st1 = replace_chunks id (new_chunk id <$> zip (source_texts cfg row) vectors) st
    ∧ chunks_created out = Z.of_nat (length (source_texts cfg row)).
Proof.
  unfold embed_single_item_command, embed_single_item_body, try_except, bind, call,
    raise, ret, lift, source_request. simpl.
  destruct (model_lookup cfg) as [[m|]|e] eqn:Hm; simpl;
    try (intros [= <- _ _]; discriminate).
  unfold store_get. simpl.
  destruct (source_table st !! id) as [row|] eqn:Hrow; simpl;
    [|intros [= <- _ _]; discriminate].
  unfold store_vectorize, provider. rewrite Hm. simpl.
  destruct (comprehension m (source_texts cfg row)) as [vectors|e] eqn:Hv; simpl;
    [|intros [= <- _ _]; discriminate].
  unfold store_query.
  destruct (query_fault cfg (QCountChunks id)) as [e|] eqn:Hq; simpl;
    [intros [= <- _ _]; discriminate|].
  rewrite read_count_answer. intros [= <- <- _] _.
  exists row, m, vectors. repeat split; auto. simpl.
  rewrite count_chunks_replaced, length_zip.
  rewrite (comprehension_length _ _ _ Hv). f_equal. lia.
Qed.

(** Conversely, under those conditions the command succeeds. *)
Lemma embed_source_runs (id : string) st log row m vectors :
  source_table st !! id = Some row →
  model_lookup cfg = Ok (Some m) →
  comprehension m (source_texts cfg row) = Ok vectors →
  query_fault cfg (QCountChunks id) = None →
  ∃ out log',
    embed_single (source_request id) (st, log)
    = (Ok out,
       (replace_chunks id (new_chunk id <$> zip (source_texts cfg row) vectors) st, log'))
    ∧ es_success out = true
    ∧ chunks_created out = Z.of_nat (length (source_texts cfg row)).
Proof.
  intros Hrow Hm Hv Hq.
  unfold embed_single_item_command, embed_single_item_body, try_except, bind, call,
    raise, ret, lift, source_request. simpl.
  rewrite Hm. simpl. unfold store_get. simpl. rewrite Hrow. simpl.
  unfold store_vectorize, provider. rewrite Hm. simpl.
  rewrite Hv. simpl. unfold store_query. rewrite Hq. simpl.
  rewrite read_count_answer. simpl. eexists _, _. split; [reflexivity|]. simpl.
  split; [reflexivity|].
  rewrite count_chunks_replaced, length_zip.
  rewrite (comprehension_length _ _ _ Hv). f_equal. lia.
Qed.

(** A run that ends in failure is repeated as it is: same report, same
    store. *)
Lemma embed_source_failure (id : string) st log out st1 log1 :
  embed_single (source_request id) (st, log) = (Ok out, (st1, log1)) →
  es_success out = false →
  ∃ log2, embed_single (source_request id) (st1, log1) = (Ok out, (st1, log2)).
Proof.
  unfold embed_single_item_command, embed_single_item_body, try_except, bind, call,
    raise, ret, lift, source_request. simpl.
  destruct (model_lookup cfg) as [[m|]|e] eqn:Hm; simpl;
    try (intros [= <- <- <-] _; eexists; reflexivity).
  unfold store_get. simpl.
  destruct (source_table st !! id) as [row|] eqn:Hrow; simpl;
    [|intros [= <- <- <-] _; rewrite Hrow; eexists; reflexivity].
  unfold store_vectorize, provider. rewrite Hm. simpl.
  destruct (comprehension m (source_texts cfg row)) as [vectors|e] eqn:Hv; simpl;
    [|intros [= <- <- <-] _; rewrite Hrow; simpl; rewrite Hv; eexists; reflexivity].
  unfold store_query.
  destruct (query_fault cfg (QCountChunks id)) as [e|] eqn:Hq; simpl.
  - intros [= <- <- <-] _. simpl. rewrite Hrow. simpl. rewrite Hv. simpl.
    rewrite replace_chunks_twice. eexists. reflexivity.
  - rewrite read_count_answer. intros [= <- _ _] Hfail. discriminate Hfail.
Qed.

(** C7: embedding a source is idempotent.  A second run of the command on
    the store the first run left returns the same success flag and the same
    chunks_created, and leaves that store exactly as it found it; after a
    successful run the source has one chunk per piece of its text and no
    more, and chunks_created is that number. *)
Theorem embed_source_twice_idempotent (id : string) st log out1 st1 log1 :
  embed_single (source_request id) (st, log) = (Ok out1, (st1, log1)) →
  ∃ out2 log2,
    embed_single (source_request id) (st1, log1) = (Ok out2, (st1, log2))
    ∧ es_success out2 = es_success out1
    ∧ chunks_created out2 = chunks_created out1
    ∧ (es_success out1 = true →
       ∃ row, source_table st !! id = Some row
              ∧ chunks_created out1 = Z.of_nat (length (source_texts cfg row))
              ∧ count_chunks id (source_embedding st1) = length (source_texts cfg row)).
Proof.
  intros Hrun. destruct (es_success out1) eqn:Hok.
  - destruct (embed_source_success id st log out1 st1 log1 Hrun Hok)
      as (row & m & vectors & Hrow & Hm & Hv & Hq & Hst1 & Hn).
    assert (source_table st1 !! id = Some row) as Hrow1 by (subst st1; exact Hrow).
    destruct (embed_source_runs id st1 log1 row m vectors Hrow1 Hm Hv Hq)
      as (out2 & log2 & Hrun2 & Hok2 & Hn2).
    exists out2, log2.
    assert (replace_chunks id (new_chunk id <$> zip (source_texts cfg row) vectors) st1
            = st1)
      as Hsame by (rewrite Hst1 at 2; rewrite Hst1; apply replace_chunks_twice).
    rewrite Hsame in Hrun2. split; [exact Hrun2|]. split; [exact Hok2|].
    split; [congruence|]. intros _. exists row. split; [exact Hrow|]. split; [exact Hn|].
    rewrite Hst1, replace_chunks_count, length_zip.
    rewrite (comprehension_length _ _ _ Hv). lia.
  - destruct (embed_source_failure id st log out1 st1 log1 Hrun Hok) as (log2 & Hrun2).
    exists out1, log2. split; [exact Hrun2|]. split; [exact Hok|].
    split; [reflexivity|]. discriminate.
Qed.

End StoreFacts.

(** ** The order of a run *)

Lemma work_NoDup (its : items) :
  NoDup (sources its) → NoDup (notes its) → NoDup (insights its) → NoDup (work its).
Proof.
  intros Hs Hn Hi. unfold work. rewrite !NoDup_app. repeat split.
  - apply (NoDup_fmap_2 _), Hs.
  - intros x Hx Hin. apply list_elem_of_fmap in Hx as (a & -> & _).
    apply elem_of_app in Hin as [Hin|Hin];
      apply list_elem_of_fmap in Hin as (b & [=] & _).
  - apply (NoDup_fmap_2 _), Hn.
  - intros x Hx Hin. apply list_elem_of_fmap in Hx as (a & -> & _).
    apply list_elem_of_fmap in Hin as (b & [=] & _).
  - apply (NoDup_fmap_2 _), Hi.
Qed.

(** C5: past pre-flight and collection the three loops are one pass over
    the collected sources, then the notes, then the insights; every
    iteration returns, whatever its item does, and looks up its own item
    and no other; the run looks up exactly the collected items, each once,
    in that order; and as the lists the collector draws from the store
    repeat no id, no item is looked up twice. *)
Theorem rebuild_processing_order {W : Type} `{Collaborators W}
    (input_data : RebuildEmbeddingsInput) (w w1 : W) (log : list event)
    (m : Model) (its : items) st2 :
  get_embedding_model w = (Ok (Some m), w1) →
  collect_for input_data (w1, log ++ [EvGetModel]) = (Ok its, st2) →
  (∀ c st, process_items m its c st = for_each (process_item m) (work its) c st)
  ∧ (∀ it c st, ∃ c' st',
       process_item m it c st = (Ok c', st') ∧ attempts st'.2 = attempts st.2 ++ [it])
  ∧ (∃ out st',
       rebuild_embeddings_command input_data (w, log) = (Ok out, st')
       ∧ attempts st'.2 = attempts log ++ work its)
  ∧ (NoDup (sources its) → NoDup (notes its) → NoDup (insights its) →
     NoDup (work its))
  ∧ (∀ cfg md b1 b2 b3 st log0 its0 st0,
       @collect_items_for_rebuild Store (store_env cfg) md b1 b2 b3 (st, log0)
         = (Ok its0, st0) →
       NoDup (work its0)).
Proof.
  intros Hm Hc. split; [|split; [|split; [|split]]].
  - intros c st. apply process_items_work.
  - intros it c st.
    destruct (process_item_returns m it c st) as (c' & st' & Hrun & _ & _ & _ & Hlog).
    exists c', st'. auto.
  - destruct (rebuild_body_run input_data w w1 log m its st2 Hm Hc)
      as (c & st' & _ & _ & Hlog & Hbody).
    pose proof (rebuild_returns input_data (w, log)) as Hret. rewrite Hbody in Hret.
    eexists _, st'. split; [exact Hret|exact Hlog].
  - apply work_NoDup.
  - intros cfg md b1 b2 b3 st log0 its0 st0 Hc0.
    apply collect_store_items in Hc0 as [-> _].
    destruct (store_items_NoDup md b1 b2 b3 st) as (Hd1 & Hd2 & Hd3).
    apply work_NoDup; assumption.
Qed.

(** ** The claims on the sample store *)

Abbreviation rebuild_on cfg := (@rebuild_embeddings_command Store (store_env cfg)).
Abbreviation embed_on cfg := (@embed_single_item_command Store (store_env cfg)).
Abbreviation collect_on cfg := (@collect_items_for_rebuild Store (store_env cfg)).

(** A run that counts two failures reports success and no error message. *)
Example rebuild_sample_run :
  (rebuild_on sample_cfg (rebuild_input existing true true true) (sample_store, [])).1
  = Ok {| success := true; total_items := 4; processed_items := 2; failed_items := 2;
          sources_processed := 1; notes_processed := 1; insights_processed := 0;
          error_message := None |}.
Proof. vm_compute. reflexivity. Qed.

(** A failure after the sources were collected still reports zero items. *)
Example rebuild_fails_after_collecting_sources :
  rebuild_on notes_outage_cfg (rebuild_input existing true true true) (sample_store, [])
  = (Ok (failure_report "store unreachable"),
     (sample_store,
      [EvGetModel; EvQuery QSourcesWithEmbedding; EvQuery QNotesWithEmbedding])).
Proof. vm_compute. reflexivity. Qed.

(** C1 does not hold of the command as stated: with all three flags false
    the command does not reject the request but reports success. *)
Lemma rebuild_empty_selection_not_rejected :
  (rebuild_on sample_cfg (rebuild_input all false false false) (sample_store, [])).1
  = Ok empty_report
  ∧ success empty_report = true
  ∧ error_message empty_report = None.
Proof. repeat split. Qed.

Lemma rebuild_empty_selection_completes_witness :
  include_sources (rebuild_input all false false false) = false
  ∧ include_notes (rebuild_input all false false false) = false
  ∧ include_insights (rebuild_input all false false false) = false
  ∧ @get_embedding_model Store (store_env sample_cfg) sample_store
    = (Ok (Some sample_model), sample_store)
  ∧ rebuild_on sample_cfg (rebuild_input all false false false) (sample_store, [])
    = (Ok empty_report, (sample_store, [EvGetModel]))
  ∧ start_rebuild_disabled false false false = true.
Proof.
  destruct (@rebuild_empty_selection_completes Store (store_env sample_cfg)
              (rebuild_input all false false false) sample_store sample_store []
              sample_model eq_refl eq_refl eq_refl eq_refl)
    as (Hrun & _ & _ & Hguard).
  split; [reflexivity|]. split; [reflexivity|]. split; [reflexivity|].
  split; [reflexivity|]. split; [exact Hrun|exact Hguard].
Defined.

Lemma rebuild_without_model_fails_fast_witness :
  @get_embedding_model Store (store_env no_model_cfg) sample_store
  = (Ok None, sample_store)
  ∧ rebuild_on no_model_cfg (rebuild_input all true true true) (sample_store, [])
    = (Ok (failure_report no_model_message), (sample_store, [EvGetModel])).
Proof.
  split; [reflexivity|].
  exact (proj1 (@rebuild_without_model_fails_fast Store (store_env no_model_cfg)
                  (rebuild_input all true true true) sample_store sample_store []
                  eq_refl)).
Defined.

Lemma rebuild_zero_items_completes_witness :
  @get_embedding_model Store (store_env sample_cfg) empty_store
  = (Ok (Some sample_model), empty_store)
  ∧ @collect_for Store (store_env sample_cfg) (rebuild_input all true true true)
      (empty_store, [EvGetModel])
    = (Ok {| sources := []; notes := []; insights := [] |},
       (empty_store,
        [EvGetModel; EvQuery QSourcesAll; EvQuery QNotesAll; EvQuery QInsightsAll]))
  ∧ rebuild_on sample_cfg (rebuild_input all true true true) (empty_store, [])
    = (Ok empty_report,
       (empty_store,
        [EvGetModel; EvQuery QSourcesAll; EvQuery QNotesAll; EvQuery QInsightsAll])).
Proof.
  assert (@collect_for Store (store_env sample_cfg) (rebuild_input all true true true)
            (empty_store, [] ++ [EvGetModel])
          = (Ok {| sources := []; notes := []; insights := [] |},
             (empty_store,
              [EvGetModel; EvQuery QSourcesAll; EvQuery QNotesAll; EvQuery QInsightsAll])))
    as Hc by (vm_compute; reflexivity).
  split; [reflexivity|]. split; [exact Hc|].
  exact (proj1 (@rebuild_zero_items_completes Store (store_env sample_cfg)
                  (rebuild_input all true true true) empty_store empty_store []
                  sample_model _ _ eq_refl Hc eq_refl)).
Defined.

Lemma rebuild_counters_consistent_witness :
  @get_embedding_model Store (store_env sample_cfg) sample_store
  = (Ok (Some sample_model), sample_store)
  ∧ @collect_for Store (store_env sample_cfg) (rebuild_input existing true true true)
      (sample_store, [EvGetModel])
    = (Ok sample_items, (sample_store, sample_queries))
  ∧ ∃ out st',
      rebuild_on sample_cfg (rebuild_input existing true true true) (sample_store, [])
      = (Ok out, st')
      ∧ success out = true
      ∧ total_items out = 4
      ∧ processed_items out + failed_items out = total_items out
      ∧ attempts st'.2 = work sample_items.
Proof.
  assert (@collect_for Store (store_env sample_cfg) (rebuild_input existing true true true)
            (sample_store, [] ++ [EvGetModel])
          = (Ok sample_items, (sample_store, sample_queries)))
    as Hc by (vm_compute; reflexivity).
  split; [reflexivity|]. split; [exact Hc|].
  exact (proj2 (proj2 (@rebuild_counters_consistent Store (store_env sample_cfg)
                         (rebuild_input existing true true true) sample_store
                         sample_store [] sample_model _ _ eq_refl Hc))).
Defined.

Lemma rebuild_processing_order_witness :
  @get_embedding_model Store (store_env sample_cfg) sample_store
  = (Ok (Some sample_model), sample_store)
  ∧ @collect_for Store (store_env sample_cfg) (rebuild_input existing true true true)
      (sample_store, [EvGetModel])
    = (Ok sample_items, (sample_store, sample_queries))
  ∧ ∃ out st',
      rebuild_on sample_cfg (rebuild_input existing true true true) (sample_store, [])
      = (Ok out, st')
      ∧ attempts st'.2
        = [(ItSource, "source:a"); (ItSource, "source:gone"); (ItNote, "note:n");
           (ItInsight, "source_insight:i")].
Proof.
  assert (@collect_for Store (store_env sample_cfg) (rebuild_input existing true true true)
            (sample_store, [] ++ [EvGetModel])
          = (Ok sample_items, (sample_store, sample_queries)))
    as Hc by (vm_compute; reflexivity).
  split; [reflexivity|]. split; [exact Hc|].
  exact (proj1 (proj2 (proj2 (@rebuild_processing_order Store (store_env sample_cfg)
                         (rebuild_input existing true true true) sample_store
                         sample_store [] sample_model _ _ eq_refl Hc)))).
Defined.

Lemma collect_existing_selects_embedded_witness :
  collect_on sample_cfg existing true false true (sample_store, [])
  = (Ok {| sources := ["source:a"; "source:gone"]; notes := [];
           insights := ["source_insight:i"] |},
     (sample_store, [EvQuery QSourcesWithEmbedding; EvQuery QInsightsWithEmbedding]))
  ∧ NoDup ["source:a"; "source:gone"]
  ∧ ("source:b" ∈ ["source:a"; "source:gone"] ↔
     true = true ∧ ∃ ch v, ch ∈ source_embedding sample_store
                           ∧ chunk_source ch = "source:b"
                           ∧ chunk_embedding ch = Some v ∧ v ≠ []).
Proof.
  assert (collect_on sample_cfg existing true false true (sample_store, [])
          = (Ok {| sources := ["source:a"; "source:gone"]; notes := [];
                   insights := ["source_insight:i"] |},
             (sample_store,
              [EvQuery QSourcesWithEmbedding; EvQuery QInsightsWithEmbedding])))
    as Hc by (vm_compute; reflexivity).
  split; [exact Hc|].
  pose proof (collect_existing_selects_embedded sample_cfg true false true sample_store
                [] _ _ Hc) as (Hsrc & _ & _ & _ & _ & _ & Hd & _).
  split; [exact Hd|]. exact (Hsrc "source:b").
Defined.

Lemma embed_source_twice_idempotent_witness :
  let out :=
    {| es_success := true; es_item_id := "source:a"; es_item_type := "source";
       chunks_created := 2; es_error_message := None |} in
  let st1 :=
    replace_chunks "source:a"
      (new_chunk "source:a" <$> [("hello", [5%Z]); ("hello", [5%Z])]) sample_store in
  let log1 :=
    [EvGetModel; EvGet ItSource "source:a"; EvVectorize "source:a";
     EvQuery (QCountChunks "source:a")] in
  embed_on sample_cfg (source_request "source:a") (sample_store, []) = (Ok out, (st1, log1))
  ∧ es_success out = true
  ∧ ∃ out2 log2,
      embed_on sample_cfg (source_request "source:a") (st1, log1) = (Ok out2, (st1, log2))
      ∧ chunks_created out2 = 2%Z
      ∧ count_chunks "source:a" (source_embedding st1) = 2.
Proof.
  intros out st1 log1.
  assert (embed_on sample_cfg (source_request "source:a") (sample_store, [])
          = (Ok out, (st1, log1))) as Hrun by (vm_compute; reflexivity).
  split; [exact Hrun|]. split; [reflexivity|].
  destruct (embed_source_twice_idempotent sample_cfg "source:a" sample_store [] out st1
              log1 Hrun)
    as (out2 & log2 & Hrun2 & _ & Hsame & _).
  exists out2, log2. split; [exact Hrun2|]. split; [exact Hsame|].
  vm_compute. reflexivity.
Defined.

(** C8 does not hold as stated: when the exception that escapes has no
    text, the failure report carries the empty message. *)
Lemma rebuild_failure_with_empty_message :
  rebuild_on silent_failure_cfg (rebuild_input all true true true) (sample_store, [])
  = (Ok (failure_report ""), (sample_store, [EvGetModel]))
  ∧ success (failure_report "") = false
  ∧ error_message (failure_report "") = Some "".
Proof. repeat split. Qed.

(** C9 does not hold as stated: without an embedding model the command
    never looks the note up, and the error message is the one of the model
    check, which says nothing of the note. *)
Lemma embed_absent_note_without_model :
  (@Note_get Store (store_env no_model_cfg) "note:absent" sample_store).1 = Ok None
  ∧ embed_on no_model_cfg (note_request "note:absent") (sample_store, [])
    = (Ok {| es_success := false; es_item_id := "note:absent"; es_item_type := "note";
             chunks_created := 0; es_error_message := Some no_model_message |},
       (sample_store, [EvGetModel]))
  ∧ contains "not found" no_model_message = false
  ∧ contains "note:absent" no_model_message = false.
Proof. repeat split; vm_compute; reflexivity. Qed.

Lemma embed_absent_note_reports_not_found_witness :
  @get_embedding_model Store (store_env sample_cfg) sample_store
  = (Ok (Some sample_model), sample_store)
  ∧ @Note_get Store (store_env sample_cfg) "note:absent" sample_store
    = (Ok None, sample_store)
  ∧ ∃ out st',
      embed_on sample_cfg (note_request "note:absent") (sample_store, []) = (Ok out, st')
      ∧ es_success out = false
      ∧ chunks_created out = 0%Z
      ∧ es_error_message out = Some "Note 'note:absent' not found".
Proof.
  assert (@Note_get Store (store_env sample_cfg) "note:absent" sample_store
          = (Ok None, sample_store)) as Hget by (vm_compute; reflexivity).
  split; [reflexivity|]. split; [exact Hget|].
  destruct (@embed_absent_note_reports_not_found Store (store_env sample_cfg)
              "note:absent" sample_store sample_store sample_store []
              (Ok (Some sample_model)) eq_refl Hget)
    as (out & st' & Hrun & Hfail & Hchunks & Hmsg).
  exists out, st'. split; [exact Hrun|]. split; [exact Hfail|]. split; [exact Hchunks|].
  exact (proj1 (Hmsg sample_model eq_refl)).
Defined.

(** * Further properties of the commands *)

Section CollectorFacts.
Context {W : Type} `{Collaborators W}.

Ltac step_collect :=
  match goal with
  | |- context [repo_query ?q ?w] =>
      destruct (repo_query q w) as [[?|?] ?]; simpl
  | |- context [comprehension ?f ?l] =>
      destruct (comprehension f l) as [?|?]; simpl
  end.

Ltac pick_sent :=
  match goal with
  | |- ∃ sent, ((?l ++ ?a) ++ ?b) ++ ?c = _ ++ sent ∧ _ => exists (a ++ b ++ c)
  | |- ∃ sent, (?l ++ ?a) ++ ?b = _ ++ sent ∧ _ => exists (a ++ b)
  | |- ∃ sent, ?l ++ ?a = _ ++ sent ∧ _ => exists a
  | |- ∃ sent, ?l = _ ++ sent ∧ _ => exists []
  end.

(** The collector sends its queries in the order sources, notes, insights,
    one for each selected type and none for the others; it stops at the
    first query or row that fails, so what it has sent is a prefix of the
    plan, and the whole plan when it returns. *)
Theorem collect_queries_in_order (md : mode) (b1 b2 b3 : bool) (w : W)
    (log : list event) r st' :
  collect_items_for_rebuild md b1 b2 b3 (w, log) = (r, st') →
  ∃ sent,
    st'.2 = log ++ sent
    ∧ sent `prefix_of` planned_queries md b1 b2 b3
    ∧ (∀ its, r = Ok its → sent = planned_queries md b1 b2 b3).
Proof.
  unfold collect_items_for_rebuild, ids_of_rows, bind, call, lift, ret, planned_queries.
  destruct b1, b2, b3, md; simpl; repeat step_collect; intros [= <- <-]; simpl;
    pick_sent;
    (split; [rewrite <- ?app_assoc, ?app_nil_r; reflexivity|]);
    (split; [eexists; simpl; reflexivity|]);
    intros its Hr; first [discriminate Hr | reflexivity].
Qed.

End CollectorFacts.

Section RebuildCounterFacts.
Context {W : Type} `{Collaborators W}.

Lemma processed_of_incr_failed (t : item_type) (c : counters) :
  processed_of t (incr_failed c) = processed_of t c.
Proof. destruct t; reflexivity. Qed.

Lemma processed_of_incr_processed (t t' : item_type) (c : counters) :
  processed_of t (incr_processed t' c)
  = processed_of t c + (if decide (t' = t) then 1 else 0).
Proof. destruct t, t'; simpl; lia. Qed.

(** A pass raises the counter of a type by at most the number of items of
    that type in the list, and lowers none. *)
Lemma for_each_counts (m : Model) (l : list (item_type * string)) (c : counters) st c' st'
    (t : item_type) :
  for_each (process_item m) l c st = (Ok c', st') →
  (processed_of t c ≤ processed_of t c')%nat
  ∧ (processed_of t c' ≤ processed_of t c + length (filter (λ it, it.1 = t) l))%nat.
Proof.
  revert c st. induction l as [|it l IH]; intros c st; simpl.
  - unfold ret. intros [= <- <-]. simpl. lia.
  - destruct (process_item_returns m it c st) as (c1 & st1 & Hrun & Hc & _).
    unfold bind. rewrite Hrun. intros Hrest. apply IH in Hrest as [Hlo Hhi].
    rewrite filter_cons.
    destruct Hc as [-> | ->].
    + rewrite processed_of_incr_failed in *.
      destruct (decide (it.1 = t)); simpl; lia.
    + rewrite processed_of_incr_processed in *.
      destruct (decide (it.1 = t)); simpl; lia.
Qed.

Lemma work_count (its : items) (t : item_type) :
  length (filter (λ it : item_type * string, it.1 = t) (work its))
  = match t with
    | ItSource => length (sources its)
    | ItNote => length (notes its)
    | ItInsight => length (insights its)
    end.
Proof.
  assert (∀ (t' : item_type) (l : list string),
            length (filter (λ it : item_type * string, it.1 = t) (pair t' <$> l))
            = if decide (t' = t) then length l else 0) as Hseg.
  { intros t' l. induction l as [|x l IH].
    - destruct (decide (t' = t)); reflexivity.
    - rewrite fmap_cons. destruct (decide (t' = t)) as [Heq|Hne].
      + rewrite filter_cons_True by exact Heq. simpl. rewrite IH. reflexivity.
      + rewrite filter_cons_False by exact Hne. exact IH. }
  unfold work. rewrite !filter_app, !length_app, !Hseg.
  destruct t; simpl; lia.
Qed.

(** The per-type counters of a report: none exceeds the number of items
    collected for its type, they add up to processed_items, and
    failed_items is what is left of the total. *)
Theorem rebuild_per_type_counters
    (input_data : RebuildEmbeddingsInput) (w w1 : W) (log : list event)
    (m : Model) (its : items) st2 :
  get_embedding_model w = (Ok (Some m), w1) →
  collect_for input_data (w1, log ++ [EvGetModel]) = (Ok its, st2) →
  ∃ out st',
    rebuild_embeddings_command input_data (w, log) = (Ok out, st')
    ∧ (sources_processed out ≤ length (sources its))%nat
    ∧ (notes_processed out ≤ length (notes its))%nat
    ∧ (insights_processed out ≤ length (insights its))%nat
    ∧ processed_items out
      = sources_processed out + notes_processed out + insights_processed out
    ∧ failed_items out = total its - processed_items out.
Proof.
  intros Hm Hc.
  destruct (rebuild_body_run input_data w w1 log m its st2 Hm Hc)
    as (c & st' & Hrun & Hsum & _ & Hbody).
  pose proof (rebuild_returns input_data (w, log)) as Hret. rewrite Hbody in Hret.
  eexists _, st'. split; [exact Hret|]. simpl.
  pose proof (for_each_counts m _ _ _ _ _ ItSource Hrun) as [_ Hs].
  pose proof (for_each_counts m _ _ _ _ _ ItNote Hrun) as [_ Hn].
  pose proof (for_each_counts m _ _ _ _ _ ItInsight Hrun) as [_ Hi].
  rewrite work_count in Hs, Hn, Hi. simpl in Hs, Hn, Hi.
  unfold c_processed_items in *. repeat split; lia.
Qed.

(** A failure of the collection is fatal to the run: the command returns
    the failure report with the text of the exception, and no item has been
    looked up. *)
Theorem rebuild_collect_failure_is_fatal
    (input_data : RebuildEmbeddingsInput) (w w1 : W) (log : list event)
    (m : Model) (e : exn) st2 :
  get_embedding_model w = (Ok (Some m), w1) →
  collect_for input_data (w1, log ++ [EvGetModel]) = (Raise e, st2) →
  rebuild_embeddings_command input_data (w, log)
    = (Ok (failure_report (str_exn e)), st2)
  ∧ attempts st2.2 = attempts log.
Proof.
  intros Hm Hc. split.
  - unfold rebuild_embeddings_command, rebuild_embeddings_body, try_except, bind at 1, call.
    simpl. rewrite Hm. simpl. unfold bind. unfold collect_for in Hc. rewrite Hc.
    reflexivity.
  - apply collect_attempts in Hc. simpl in Hc. rewrite Hc, attempts_app. simpl.
    apply app_nil_r.
Qed.

End RebuildCounterFacts.

Section EmbedSingleFacts.
Context {W : Type} `{Collaborators W}.

Ltac step_call :=
  match goal with
  | |- context [get_embedding_model ?w] =>
      destruct (get_embedding_model w) as [[[?|]|?] ?]; simpl
  | |- context [Source_get ?i ?w] => destruct (Source_get i w) as [[[?|]|?] ?]; simpl
  | |- context [Note_get ?i ?w] => destruct (Note_get i w) as [[[?|]|?] ?]; simpl
  | |- context [SourceInsight_get ?i ?w] =>
      destruct (SourceInsight_get i w) as [[[?|]|?] ?]; simpl
  | |- context [Source_vectorize ?x ?w] =>
      destruct (Source_vectorize x w) as [[[]|?] ?]; simpl
  | |- context [Note_save ?x ?w] => destruct (Note_save x w) as [[[]|?] ?]; simpl
  | |- context [aembed ?m ?t ?w] => destruct (aembed m t w) as [[[|? ?]|?] ?]; simpl
  | |- context [repo_query ?q ?w] => destruct (repo_query q w) as [[?|?] ?]; simpl
  | |- context [read_count ?r] => destruct (read_count r) as [?|?]; simpl
  end.

(** The single-item command never raises.  Its report names the item of the
    request; with success set it carries no error message; with success
    unset it carries the text of the exception that escaped the body and
    chunks_created = 0; and only a source ever reports chunks: for a note or
    an insight chunks_created is 0 in every report. *)
Theorem embed_single_always_reports (input_data : EmbedSingleItemInput) st :
  ∃ out st',
    embed_single_item_command input_data st = (Ok out, st')
    ∧ es_item_id out = in_item_id input_data
    ∧ es_item_type out = item_type_name (in_item_type input_data)
    ∧ (es_success out = true → es_error_message out = None)
    ∧ (es_success out = false →
       chunks_created out = 0%Z
       ∧ ∃ e, embed_single_item_body input_data st = (Raise e, st')
              ∧ es_error_message out = Some (str_exn e))
    ∧ (in_item_type input_data ≠ ItSource → chunks_created out = 0%Z).
Proof.
  destruct input_data as [id t], st as [w log].
  unfold embed_single_item_command, embed_single_item_body, try_except, bind, call,
    raise, ret, lift.
  destruct t; simpl; repeat step_call;
    (eexists _, _; split; [reflexivity|]); simpl;
    (split; [reflexivity|]); (split; [reflexivity|]);
    (split; [first [reflexivity | discriminate]|]);
    (split; [first [discriminate | intros _; split; [reflexivity|eexists; split; reflexivity]]
            |first [reflexivity | intros Hne; contradiction]]).
Qed.

(** Without an embedding model the single-item command fails at once,
    whatever the item: it has looked nothing up and its message is the one
    of the model check. *)
Theorem embed_single_without_model
    (input_data : EmbedSingleItemInput) (w w1 : W) (log : list event) :
  get_embedding_model w = (Ok None, w1) →
  embed_single_item_command input_data (w, log)
  = (Ok (embed_failure (in_item_type input_data) (in_item_id input_data) no_model_message),
     (w1, log ++ [EvGetModel])).
Proof.
  intros Hm.
  unfold embed_single_item_command, embed_single_item_body, try_except, bind, call, raise.
  simpl. rewrite Hm. reflexivity.
Qed.

(** With a model configured, an item of any type whose lookup answers that
    it is absent makes the command fail with the not-found message naming
    its kind and id; the lookup is the only call made for the item. *)
Theorem embed_single_absent_item
    (t : item_type) (id : string) (w w1 : W) (log : list event) (m : Model) :
  get_embedding_model w = (Ok (Some m), w1) →
  item_absent (t, id) w1 →
  ∃ w2,
    embed_single_item_command (item_request t id) (w, log)
    = (Ok (embed_failure t id (not_found_message (kind_name t) id)),
       (w2, log ++ [EvGetModel] ++ [EvGet t id]))
    ∧ contains "not found" (not_found_message (kind_name t) id) = true
    ∧ contains id (not_found_message (kind_name t) id) = true.
Proof.
  intros Hm Habs.
  destruct (not_found_message_mentions (kind_name t) id) as [Hnf Hid].
  unfold embed_single_item_command, embed_single_item_body, try_except, bind, call,
    raise, item_request, item_absent in *.
  simpl in *. rewrite Hm. simpl.
  destruct t; simpl in *.
  - destruct (Source_get id w1) as [r w2]. simpl in Habs. subst r. simpl.
    exists w2. rewrite <- app_assoc. auto.
  - destruct (Note_get id w1) as [r w2]. simpl in Habs. subst r. simpl.
    exists w2. rewrite <- app_assoc. auto.
  - destruct (SourceInsight_get id w1) as [r w2]. simpl in Habs. subst r. simpl.
    exists w2. rewrite <- app_assoc. auto.
Qed.

End EmbedSingleFacts.

Section StoreRunFacts.
Variable cfg : Config.

(** In mode all the collector returns, for each selected type: the sources
    whose full_text is present, the notes whose content is present, and every
    insight; a type that is not selected yields the empty list, no list
    repeats an id, and the store is left as it was. *)
Theorem collect_all_selects_content
    (b1 b2 b3 : bool) (st : Store) (log : list event) (its : items) st' :
  @collect_items_for_rebuild Store (store_env cfg) all b1 b2 b3 (st, log) = (Ok its, st') →
  (∀ id, id ∈ sources its ↔
     b1 = true ∧ ∃ r text, source_table st !! id = Some r ∧ full_text r = Some text)
  ∧ (∀ id, id ∈ notes its ↔
     b2 = true ∧ ∃ r text, note_table st !! id = Some r ∧ note_content r = Some text)
  ∧ (∀ id, id ∈ insights its ↔ b3 = true ∧ is_Some (source_insight st !! id))
  ∧ NoDup (sources its) ∧ NoDup (notes its) ∧ NoDup (insights its)
  ∧ st'.1 = st.
Proof.
  intros Hc. apply collect_store_items in Hc as [-> Hst].
  destruct (store_items_NoDup all b1 b2 b3 st) as (Hd1 & Hd2 & Hd3).
  split; [|split; [|split; [|auto]]]; simpl; intros id; split.
  - destruct b1; [|intros Hin; inversion Hin].
    intros Hin. apply elem_of_selected_ids in Hin as (r & Hl & He).
    apply bool_decide_eq_true in He as [text Ht]. split; [reflexivity|].
    exists r, text. auto.
  - intros [Hb (r & text & Hl & Ht)]. subst b1. apply elem_of_selected_ids.
    exists r. split; [exact Hl|]. apply bool_decide_eq_true. exists text. exact Ht.
  - destruct b2; [|intros Hin; inversion Hin].
    intros Hin. apply elem_of_selected_ids in Hin as (r & Hl & He).
    apply bool_decide_eq_true in He as [text Ht]. split; [reflexivity|].
    exists r, text. auto.
  - intros [Hb (r & text & Hl & Ht)]. subst b2. apply elem_of_selected_ids.
    exists r. split; [exact Hl|]. apply bool_decide_eq_true. exists text. exact Ht.
  - destruct b3; [|intros Hin; inversion Hin].
    intros Hin. apply elem_of_selected_ids in Hin as (r & Hl & _).
    split; [reflexivity|]. exists r. exact Hl.
  - intros [Hb [r Hl]]. subst b3. apply elem_of_selected_ids. exists r. auto.
Qed.

(** On a store in which whatever has an embedding still has its content
    (every chunk names a source that is there with its full_text, every note
    with an embedding has its content), mode all collects every id that mode
    existing collects. *)
Theorem collect_existing_within_all (b1 b2 b3 : bool) (st : Store) (log log' : list event)
    (its_e its_a : items) st_e st_a :
  (∀ ch, ch ∈ source_embedding st →
     ∃ r text, source_table st !! chunk_source ch = Some r ∧ full_text r = Some text) →
  (∀ id r, note_table st !! id = Some r → is_Some (note_embedding r) →
     is_Some (note_content r)) →
  @collect_items_for_rebuild Store (store_env cfg) existing b1 b2 b3 (st, log)
    = (Ok its_e, st_e) →
  @collect_items_for_rebuild Store (store_env cfg) all b1 b2 b3 (st, log')
    = (Ok its_a, st_a) →
  sources its_e ⊆ sources its_a
  ∧ notes its_e ⊆ notes its_a
  ∧ insights its_e ⊆ insights its_a.
Proof.
  intros Hchunks Hnotes He Ha.
  apply collect_store_items in He as [-> _].
  apply collect_store_items in Ha as [-> _].
  simpl. split; [|split]; intros id Hin.
  - destruct b1; [|inversion Hin].
    apply elem_of_embedded_sources in Hin as (ch & v & Hch & <- & _).
    destruct (Hchunks ch Hch) as (r & text & Hl & Ht).
    apply elem_of_selected_ids. exists r. split; [exact Hl|].
    apply bool_decide_eq_true. exists text. exact Ht.
  - destruct b2; [|inversion Hin].
    apply elem_of_selected_ids in Hin as (r & Hl & He).
    apply has_embedding_true in He as (v & Hv & _).
    apply elem_of_selected_ids. exists r. split; [exact Hl|].
    apply bool_decide_eq_true. apply (Hnotes id r Hl). exists v. exact Hv.
  - destruct b3; [|inversion Hin].
    apply elem_of_selected_ids in Hin as (r & Hl & _).
    apply elem_of_selected_ids. exists r. auto.
Qed.

(** Embedding an insight over the store: with a model that embeds the
    insight's text and an update that does not fail, the command succeeds
    with chunks_created = 0; afterwards the insight has the vector the model
    gave for its text and its text as before, and nothing else in the store
    has changed. *)
Theorem embed_insight_updates_embedding (id : string) (st : Store) (log : list event)
    (m : string → result vector) (r : insight_row) (v : vector) :
  model_lookup cfg = Ok (Some m) →
  source_insight st !! id = Some r →
  m (insight_text r) = Ok v →
  query_fault cfg (QUpdateInsight id v) = None →
  ∃ out st' log',
    @embed_single_item_command Store (store_env cfg) (item_request ItInsight id) (st, log)
    = (Ok out, (st', log'))
    ∧ es_success out = true
    ∧ chunks_created out = 0%Z
    ∧ source_insight st' !! id
      = Some {| insight_text := insight_text r; insight_embedding := Some v |}
    ∧ (∀ id', id' ≠ id → source_insight st' !! id' = source_insight st !! id')
    ∧ source_table st' = source_table st
    ∧ source_embedding st' = source_embedding st
    ∧ note_table st' = note_table st.
Proof.
  intros Hm Hrow Hv Hq.
  unfold embed_single_item_command, embed_single_item_body, try_except, bind, call,
    raise, ret, lift, item_request.
  simpl. rewrite Hm. simpl. unfold store_get. simpl. rewrite Hrow. simpl.
  rewrite Hv. simpl. unfold store_query. rewrite Hq. simpl.
  eexists _, _, _. split; [reflexivity|]. simpl.
  split; [reflexivity|]. split; [reflexivity|]. split; [|split; [|auto]].
  - rewrite lookup_alter_eq, Hrow. reflexivity.
  - intros id' Hne. apply lookup_alter_ne. congruence.
Qed.

(** ** A run in which nothing fails *)

Lemma comprehension_total {A B} (f : A → result B) (l : list A) :
  (∀ x, ∃ y, f x = Ok y) → ∃ ys, comprehension f l = Ok ys.
Proof.
  intros Hf. induction l as [|x l [ys IH]]; simpl.
  - exists []. reflexivity.
  - destruct (Hf x) as [y ->]. rewrite IH. exists (y :: ys). reflexivity.
Qed.

(** With nothing failing, an item that is present is processed, and what
    was present stays present. *)
Lemma healthy_item (m : string → result vector) (it : item_type * string)
    (c : counters) (st : Store) (log : list event) :
  healthy cfg m → present it st →
  ∃ st' log',
    @process_item Store (store_env cfg) m it c (st, log)
    = (Ok (incr_processed it.1 c), (st', log'))
    ∧ (∀ it', present it' st → present it' st').
Proof.
  intros (Hm & Htotal & Hq) Hp. destruct it as [t id].
  unfold process_item, present in *. simpl in *.
  destruct t; simpl in *; destruct Hp as [row Hrow].
  - unfold rebuild_source, source_try, try_except, bind, call, ret. simpl.
    unfold store_get. simpl. rewrite Hrow. simpl.
    unfold store_vectorize, provider. rewrite Hm. simpl.
    destruct (comprehension_total m (source_texts cfg row) Htotal) as [vs ->]. simpl.
    eexists _, _. split; [reflexivity|]. intros [[] id'] Hp'; exact Hp'.
  - unfold rebuild_note, note_try, try_except, bind, call, ret. simpl.
    unfold store_get. simpl. rewrite Hrow. simpl.
    unfold store_save, provider. rewrite Hm. simpl.
    destruct (Htotal (default "" (note_content row))) as [v ->]. simpl.
    eexists _, _. split; [reflexivity|]. intros [[] id'] Hp'; simpl in *; try exact Hp'.
    destruct (decide (id = id')) as [->|Hne].
    + rewrite lookup_insert_eq. eexists. reflexivity.
    + rewrite lookup_insert_ne by exact Hne. exact Hp'.
  - unfold rebuild_insight, insight_try, try_except, bind, call, ret, lift. simpl.
    unfold store_get. simpl. rewrite Hrow. simpl.
    destruct (Htotal (insight_text row)) as [v ->]. simpl.
    unfold store_query. rewrite Hq. simpl.
    eexists _, _. split; [reflexivity|]. intros [[] id'] Hp'; simpl in *; try exact Hp'.
    apply lookup_alter_is_Some. exact Hp'.
Qed.

Lemma healthy_pass (m : string → result vector) (l : list (item_type * string))
    (c : counters) (st : Store) (log : list event) :
  healthy cfg m → Forall (λ it, present it st) l →
  ∃ c' st',
    for_each (@process_item Store (store_env cfg) m) l c (st, log) = (Ok c', st')
    ∧ c_failed_items c' = c_failed_items c.
Proof.
  intros Hh. revert c st log. induction l as [|it l IH]; intros c st log Hall; simpl.
  - exists c, (st, log). split; reflexivity.
  - apply Forall_cons in Hall as [Hp Hall].
    destruct (healthy_item m it c st log Hh Hp) as (st1 & log1 & Hrun & Hkeep).
    unfold bind. rewrite Hrun.
    destruct (IH (incr_processed it.1 c) st1 log1) as (c' & st' & Hrest & Hf).
    { eapply Forall_impl; [exact Hall|]. intros it' Hp'. apply Hkeep, Hp'. }
    exists c', st'. split; [exact Hrest|]. rewrite Hf. destruct it as [[] ?]; reflexivity.
Qed.

Lemma store_items_present (md : mode) (b1 b2 b3 : bool) (st : Store) :
  (md = existing →
   ∀ ch, ch ∈ source_embedding st → is_Some (source_table st !! chunk_source ch)) →
  Forall (λ it, present it st) (work (store_items md b1 b2 b3 st)).
Proof.
  intros Hchunks. unfold work. rewrite !Forall_app, !Forall_fmap.
  repeat split; apply Forall_forall; intros id Hin; unfold present; simpl in *.
  - destruct b1; [|inversion Hin]. destruct md.
    + apply elem_of_embedded_sources in Hin as (ch & v & Hch & <- & _).
      apply Hchunks; [reflexivity|exact Hch].
    + apply elem_of_selected_ids in Hin as (r & Hl & _). exists r. exact Hl.
  - destruct b2; [|inversion Hin].
    destruct md; apply elem_of_selected_ids in Hin as (r & Hl & _); exists r; exact Hl.
  - destruct b3; [|inversion Hin].
    destruct md; apply elem_of_selected_ids in Hin as (r & Hl & _); exists r; exact Hl.
Qed.

(** A rebuild over the store in which nothing fails: with a model that
    embeds every text and no failing query, a run in mode all, and a run in
    mode existing over chunks that all name a source that is there, fails no
    item: the report has success set, failed_items = 0 and processed_items =
    total_items, the number of items the selection holds. *)
Theorem rebuild_healthy_fails_no_item (m : string → result vector) (md : mode)
    (b1 b2 b3 : bool) (st : Store) (log : list event) :
  healthy cfg m →
  (md = existing →
   ∀ ch, ch ∈ source_embedding st → is_Some (source_table st !! chunk_source ch)) →
  ∃ out st',
    @rebuild_embeddings_command Store (store_env cfg) (rebuild_input md b1 b2 b3) (st, log)
    = (Ok out, st')
    ∧ success out = true
    ∧ failed_items out = 0
    ∧ processed_items out = total_items out
    ∧ total_items out = total (store_items md b1 b2 b3 st).
Proof.
  intros Hh Hchunks. pose proof Hh as (Hm & _ & Hq).
  destruct (collect_returns cfg md b1 b2 b3 st (log ++ [EvGetModel]) Hq) as [log1 Hc].
  assert (@get_embedding_model Store (store_env cfg) st = (Ok (Some m), st)) as Hget
    by (simpl; rewrite Hm; reflexivity).
  destruct (@rebuild_body_run Store (store_env cfg) (rebuild_input md b1 b2 b3) st st log m
              _ _ Hget Hc) as (c & st' & Hrun & Hsum & _ & Hbody).
  destruct (healthy_pass m (work (store_items md b1 b2 b3 st)) counters_init st log1 Hh
              (store_items_present md b1 b2 b3 st Hchunks)) as (c0 & st0 & Hrun0 & Hf).
  rewrite Hrun in Hrun0. injection Hrun0 as <- <-. simpl in Hf.
  pose proof (@rebuild_returns Store (store_env cfg) (rebuild_input md b1 b2 b3) (st, log))
    as Hret.
  rewrite Hbody in Hret. eexists _, st'. split; [exact Hret|]. simpl.
  split; [reflexivity|]. split; [exact Hf|]. split; [lia|reflexivity].
Qed.

End StoreRunFacts.

(** * Properties of the configuration endpoint *)

Section ConfigFacts.
Context {W : Type} `{ConfigServices W}.

(** GitHub is asked at most once in the life of the process: under a clock
    that shows a positive time, after one call of the cached check every
    later call, for whatever current version, returns the same pair and
    leaves the cache, the world and the calls as they are. *)
Theorem version_checked_at_most_once (current later : toml) (s : api_state) :
  (∀ w, (0 < (time_time w).1)%Q) →
  get_latest_version_cached later (get_latest_version_cached current s).2
  = get_latest_version_cached current s.
Proof.
  intros Hclock. unfold get_latest_version_cached at 2 3.
  destruct (Qlt_le_dec 0 (timestamp (cache s))) as [Hhit|Hmiss].
  - simpl. unfold get_latest_version_cached.
    destruct (Qlt_le_dec 0 (timestamp (cache s))) as [_|Hle]; [reflexivity|].
    exfalso. apply (Qlt_not_le _ _ Hhit Hle).
  - destruct (check_github current (world s)) as [r w1].
    pose proof (Hclock w1) as Hnow.
    destruct (time_time w1) as [now w2]. simpl in Hnow.
    destruct r as [[latest update]|e]; simpl; unfold get_latest_version_cached; simpl;
      (destruct (Qlt_le_dec 0 now) as [_|Hle];
       [reflexivity | exfalso; apply (Qlt_not_le _ _ Hnow Hle)]).
Qed.

(** What a call returns is what the cache holds afterwards, and a coherent
    cache stays coherent: no update is announced without a version, and a
    failed check leaves none. *)
Theorem version_cache_stays_coherent (current : toml) (s : api_state) :
  (get_latest_version_cached current s).1
  = (latest_version (cache (get_latest_version_cached current s).2),
     has_update (cache (get_latest_version_cached current s).2))
  ∧ (cache_coherent (cache s) →
     cache_coherent (cache (get_latest_version_cached current s).2)).
Proof.
  unfold get_latest_version_cached.
  destruct (Qlt_le_dec 0 (timestamp (cache s))) as [Hhit|Hmiss]; simpl.
  - split; [reflexivity|auto].
  - destruct (check_github current (world s)) as [r w1].
    destruct (time_time w1) as [now w2].
    destruct r as [[latest update]|e]; simpl; (split; [reflexivity|]);
      intros _; split; simpl; intros Hx; try discriminate; reflexivity.
Qed.

(** On a cold cache an update is announced exactly when GitHub answers
    with a version and the comparison of the current version with it is
    negative; a failure of the fetch or of the comparison is recorded in
    the cache as a failed check with no version. *)
Theorem version_check_outcome (current : toml) (s : api_state) :
  (timestamp (cache s) <= 0)%Q →
  let r := get_latest_version_cached current s in
  (r.1.2 = true ↔
     ∃ latest c w1,
       get_version_from_github github_url "main" (world s) = (Ok latest, w1)
       ∧ compare_versions current latest = Ok c ∧ (c < 0)%Z
       ∧ r.1.1 = Some latest)
  ∧ (check_failed (cache r.2) = true ↔
     (∃ e w1, get_version_from_github github_url "main" (world s) = (Raise e, w1))
     ∨ (∃ latest w1 e,
          get_version_from_github github_url "main" (world s) = (Ok latest, w1)
          ∧ compare_versions current latest = Raise e))
  ∧ calls r.2 = calls s ++ [CallGitHub; CallClock].
Proof.
  intros Hcold. unfold get_latest_version_cached.
  destruct (Qlt_le_dec 0 (timestamp (cache s))) as [Hhit|_];
    [exfalso; apply (Qlt_not_le _ _ Hhit Hcold)|].
  unfold check_github.
  destruct (get_version_from_github github_url "main" (world s)) as [[latest|e] w1].
  - destruct (compare_versions current latest) as [c|e] eqn:Hcmp;
      destruct (time_time w1) as [now w2]; simpl.
    + split; [|split; [|reflexivity]].
      * split.
        -- intros Hlt. apply Z.ltb_lt in Hlt. exists latest, c, w1. repeat split; auto.
        -- intros (l & c' & w' & [= <- <-] & Hc' & Hlt & _).
           rewrite Hcmp in Hc'. injection Hc' as <-. apply Z.ltb_lt, Hlt.
      * split; [discriminate|].
        intros [(e & w' & [=]) | (l & w' & e & [= <- <-] & Hc')].
        rewrite Hcmp in Hc'. discriminate Hc'.
    + split; [|split; [|reflexivity]].
      * split; [discriminate|]. intros (l & c' & w' & [= <- <-] & Hc' & _).
        rewrite Hcmp in Hc'. discriminate Hc'.
      * split; [|reflexivity]. intros _. right. exists latest, w1, e. split; auto.
  - destruct (time_time w1) as [now w2]; simpl.
    split; [|split; [|reflexivity]].
    + split; [discriminate|]. intros (l & c' & w' & [=] & _).
    + split; [|reflexivity]. intros _. left. exists e, w1. reflexivity.
Qed.

(** The health check never raises; it answers online exactly when the
    query came back in time with a result that counts as true, and an
    offline answer always says why. *)
Theorem database_health_outcome (s : api_state) :
  let r := check_database_health s in
  (status r.1 = online ↔ (health_query (world s)).1 = DbResult true)
  ∧ (status r.1 = online → error r.1 = None)
  ∧ (status r.1 = offline → is_Some (error r.1))
  ∧ ((health_query (world s)).1 = DbTimeout → error r.1 = Some "Health check timeout")
  ∧ cache r.2 = cache s.
Proof.
  unfold check_database_health.
  destruct (health_query (world s)) as [[[|]| |e] w1]; simpl;
    repeat split; try discriminate; try reflexivity; eauto.
Qed.

(** The version read from the project file: it is the version entry of
    the project table when the file reads and has both, and in every other
    case, an unreadable file, no project table, a project entry that is no
    table, no version entry, the answer is unknown; the function never
    raises. *)
Theorem get_version_unknown_unless_declared (s : api_state) :
  (∀ pyproject entries v w1,
     read_pyproject (world s) = (Ok pyproject, w1) →
     toml_assoc "project" pyproject = Some (TomlTable entries) →
     toml_assoc "version" entries = Some v →
     (get_version s).1 = v)
  ∧ ((get_version s).1 ≠ unknown_version →
     ∃ pyproject entries w1,
       read_pyproject (world s) = (Ok pyproject, w1)
       ∧ toml_assoc "project" pyproject = Some (TomlTable entries)
       ∧ toml_assoc "version" entries = Some (get_version s).1).
Proof.
  unfold get_version. destruct (read_pyproject (world s)) as [[pyproject|e] w1].
  - split.
    + intros p entries v w' [= <- <-] Hp Hv. rewrite Hp. simpl. rewrite Hv. reflexivity.
    + destruct (toml_assoc "project" pyproject) as [[str|entries|]|] eqn:Hp; simpl;
        try (intros Hne; contradiction).
      destruct (toml_assoc "version" entries) as [v|] eqn:Hv; simpl;
        [|intros Hne; contradiction].
      intros _. exists pyproject, entries, w1. auto.
  - split; [intros p entries v w' [=]|]. simpl. intros Hne. contradiction.
Qed.

(** An API_URL that is set and not empty is the URL of the response,
    whatever the request looks like, whether or not GitHub and the database
    answer. *)
Theorem get_config_env_override (url : string) (req : request) (s : api_state) :
  url ≠ "" →
  ∃ resp s', get_config (Some url) req s = (Ok resp, s') ∧ apiUrl resp = url.
Proof.
  intros Hne. unfold get_config.
  assert (truthy_env (Some url) = Some url) as -> by (destruct url; [contradiction|reflexivity]).
  destruct (get_version s) as [v s1].
  destruct (get_latest_version_cached v s1) as [[latest update] s2].
  destruct (check_database_health s2) as [health s3].
  eexists _, _. split; reflexivity.
Qed.

(** Without API_URL, or with an empty one, the URL is read off the request:
    the scheme is the x-forwarded-proto header when there is one and the
    scheme of the request otherwise, the host is the host header when there
    is one and the client address with port 5055 otherwise. *)
Theorem get_config_detects_url (env : option string) (req : request) (s : api_state)
    (client_host : string) :
  env = None ∨ env = Some "" →
  client req = Some client_host →
  ∃ resp s',
    get_config env req s = (Ok resp, s')
    ∧ apiUrl resp
      = default (url_scheme req) (headers req !! "x-forwarded-proto")
        +:+ "://" +:+ default (client_host +:+ ":5055") (headers req !! "host").
Proof.
  intros Henv Hclient. unfold get_config, detect_api_url.
  assert (truthy_env env = None) as -> by (destruct Henv as [-> | ->]; reflexivity).
  rewrite Hclient.
  destruct (get_version s) as [v s1].
  destruct (get_latest_version_cached v s1) as [[latest update] s2].
  destruct (check_database_health s2) as [health s3].
  eexists _, _. split; reflexivity.
Qed.

(** Without API_URL, a request that has no client address makes the
    endpoint raise, also when the host header is there, because the default
    for the host is built first; nothing has been read or asked by then. *)
Theorem get_config_needs_client (env : option string) (req : request) (s : api_state) :
  env = None ∨ env = Some "" →
  client req = None →
  get_config env req s
  = (Raise (AttributeError "'NoneType' object has no attribute 'host'"), s).
Proof.
  intros Henv Hclient. unfold get_config, detect_api_url.
  assert (truthy_env env = None) as -> by (destruct Henv as [-> | ->]; reflexivity).
  rewrite Hclient. reflexivity.
Qed.

(** A response mirrors the cache: its latest version and update flag are
    those the cache holds after the request, so from a coherent cache no
    update is announced without a version.  A request reads the project
    file once and asks the database once, and asks GitHub only while the
    cache is cold. *)
Theorem get_config_mirrors_cache (env : option string) (req : request) (s : api_state)
    (resp : config_response) (s' : api_state) :
  get_config env req s = (Ok resp, s') →
  latestVersion resp = latest_version (cache s')
  ∧ hasUpdate resp = has_update (cache s')
  ∧ (cache_coherent (cache s) →
     cache_coherent (cache s') ∧ (hasUpdate resp = true → is_Some (latestVersion resp)))
  ∧ calls s'
    = calls s ++ [CallReadFile]
      ++ (if Qlt_le_dec 0 (timestamp (cache s)) then [] else [CallGitHub; CallClock])
      ++ [CallHealth].
Proof.
  unfold get_config.
  destruct (match truthy_env env with Some url => Ok url | None => detect_api_url req end)
    as [api_url|e]; [|discriminate].
  unfold get_version.
  destruct (read_pyproject (world s)) as [r w1].
  set (s1 := {| cache := cache s; world := w1; calls := calls s ++ [CallReadFile] |}).
  assert (∀ v, (let '(latest, update, s2) := get_latest_version_cached v s1 in
                let (health, s3) := check_database_health s2 in
                (Ok {| apiUrl := api_url; version := v; latestVersion := latest;
                       hasUpdate := update; dbStatus := status health |}, s3))
               = (Ok resp, s') →
            latestVersion resp = latest_version (cache s')
            ∧ hasUpdate resp = has_update (cache s')
            ∧ (cache_coherent (cache s) →
               cache_coherent (cache s')
               ∧ (hasUpdate resp = true → is_Some (latestVersion resp)))
            ∧ calls s'
              = calls s ++ [CallReadFile]
                ++ (if Qlt_le_dec 0 (timestamp (cache s)) then []
                    else [CallGitHub; CallClock])
                ++ [CallHealth]) as Hmain.
  { intros v. unfold get_latest_version_cached. simpl.
    destruct (Qlt_le_dec 0 (timestamp (cache s))) as [Hhit|Hmiss].
    - unfold check_database_health. simpl.
      destruct (health_query w1) as [o w2]. intros [= <- <-]. simpl.
      split; [reflexivity|]. split; [reflexivity|]. split.
      + intros Hco. split; [exact Hco|]. intros Hup.
        destruct (latest_version (cache s)) as [l|] eqn:Hl; [eexists; reflexivity|].
        destruct Hco as [_ Hno]. rewrite (Hno Hl) in Hup. discriminate Hup.
      + rewrite <- !app_assoc. reflexivity.
    - destruct (check_github v w1) as [rc w2].
      destruct (time_time w2) as [now w3].
      unfold check_database_health.
      destruct rc as [[latest update]|e]; simpl;
        destruct (health_query w3) as [o w4]; intros [= <- <-]; simpl;
        (split; [reflexivity|]); (split; [reflexivity|]);
        (split; [|rewrite <- !app_assoc; reflexivity]);
        intros _; (split; [split; simpl; intros Hx; try discriminate; reflexivity|]);
        intros Hx; try discriminate; eexists; reflexivity. }
  destruct r as [pyproject|e].
  - destruct (toml_get (default (TomlTable []) (toml_assoc "project" pyproject))
                "version" unknown_version) as [v|e]; apply Hmain.
  - apply Hmain.
Qed.

End ConfigFacts.

(** * Properties of the page helpers *)

Section SourceReferenceFacts.
Variable unicode_word : N → bool.

Abbreviation word := (is_word unicode_word).
Abbreviation convert := (convert_source_references unicode_word).

Lemma strip_sound (literal t t' : pystr) :
  strip literal t = Some t' → t = literal ++ t'.
Proof.
  revert t. induction literal as [|c literal IH]; intros t; simpl.
  - intros [= ->]. reflexivity.
  - destruct t as [|d t]; [discriminate|].
    destruct (N.eqb_spec c d) as [->|_]; [|discriminate].
    intros Hs. rewrite (IH _ Hs). reflexivity.
Qed.

Lemma strip_append (literal t : pystr) : strip literal (literal ++ t) = Some t.
Proof.
  induction literal as [|c literal IH]; simpl; [reflexivity|].
  rewrite N.eqb_refl. exact IH.
Qed.

Lemma match_id_sound (t w rest : pystr) :
  match_id unicode_word t = Some (w, rest) →
  t = w ++ [RBRACKET] ++ rest ∧ w ≠ [] ∧ Forall (λ c, word c = true) w.
Proof.
  revert w rest. induction t as [|c t IH]; intros w rest; simpl; [discriminate|].
  destruct (word c) eqn:Hc; [|discriminate].
  destruct (match_id unicode_word t) as [[w' rest']|].
  - intros [= <- <-]. destruct (IH w' rest' eq_refl) as (-> & _ & Hall).
    split; [reflexivity|]. split; [discriminate|]. constructor; assumption.
  - destruct t as [|d t']; [discriminate|].
    destruct (N.eqb_spec d RBRACKET) as [->|_]; [|discriminate].
    intros [= <- <-]. split; [reflexivity|]. split; [discriminate|].
    constructor; [exact Hc|constructor].
Qed.

Lemma match_id_cons (c : N) (t : pystr) :
  match_id unicode_word (c :: t)
  = if word c then
      match match_id unicode_word t with
      | Some (w, rest) => Some (c :: w, rest)
      | None =>
          match t with
          | d :: rest => if (d =? RBRACKET)%N then Some ([c], rest) else None
          | [] => None
          end
      end
    else None.
Proof. reflexivity. Qed.

Lemma word_rbracket : word RBRACKET = false.
Proof. reflexivity. Qed.

Lemma match_id_complete (w rest : pystr) :
  w ≠ [] → Forall (λ c, word c = true) w →
  match_id unicode_word (w ++ [RBRACKET] ++ rest) = Some (w, rest).
Proof.
  induction w as [|c w IH]; [contradiction|]. intros _ Hall.
  apply Forall_cons in Hall as [Hc Hall].
  change ((c :: w) ++ [RBRACKET] ++ rest) with (c :: (w ++ [RBRACKET] ++ rest)).
  rewrite match_id_cons, Hc. destruct w as [|c' w'].
  - change ([] ++ [RBRACKET] ++ rest) with (RBRACKET :: rest).
    rewrite match_id_cons, word_rbracket, N.eqb_refl. reflexivity.
  - rewrite IH; [reflexivity|discriminate|exact Hall].
Qed.

(** A match consumes a bracketed reference: the type, the colon and a
    non-empty id of word characters. *)
Lemma match_reference_sound (t ref rest : pystr) :
  match_reference unicode_word t = Some (ref, rest) →
  t = [LBRACKET] ++ ref ++ [RBRACKET] ++ rest
  ∧ ∃ name w, name ∈ reference_types ∧ ref = codes name ++ [COLON] ++ w
              ∧ w ≠ [] ∧ Forall (λ c, word c = true) w.
Proof.
  destruct t as [|c t]; simpl; [discriminate|].
  destruct (N.eqb_spec c LBRACKET) as [->|_]; [|discriminate].
  assert (∀ names, match_types unicode_word names t = Some (ref, rest) →
            t = ref ++ [RBRACKET] ++ rest
            ∧ ∃ name w, name ∈ names ∧ ref = codes name ++ [COLON] ++ w
                        ∧ w ≠ [] ∧ Forall (λ c, word c = true) w) as Hnames.
  { induction names as [|name names IH]; simpl; [discriminate|].
    unfold match_type.
    destruct (strip (codes name ++ [COLON]) t) as [t'|] eqn:Hs.
    - destruct (match_id unicode_word t') as [[w r]|] eqn:Hid.
      + intros [= <- <-]. apply strip_sound in Hs.
        apply match_id_sound in Hid as (-> & Hne & Hall).
        split; [rewrite Hs, <- !app_assoc; reflexivity|].
        exists name, w. split; [left|]. auto.
      + intros Hm. destruct (IH Hm) as (Ht & n & w & Hin & Hrest).
        split; [exact Ht|]. exists n, w. split; [right; exact Hin|exact Hrest].
    - intros Hm. destruct (IH Hm) as (Ht & n & w & Hin & Hrest).
      split; [exact Ht|]. exists n, w. split; [right; exact Hin|exact Hrest]. }
  intros Hm. destruct (Hnames reference_types Hm) as (-> & Hex).
  split; [reflexivity|exact Hex].
Qed.

Lemma match_type_self (name : string) (tail w rest : pystr) :
  match_id unicode_word tail = Some (w, rest) →
  match_type unicode_word name (codes name ++ [COLON] ++ tail)
  = Some (codes name ++ [COLON] ++ w, rest).
Proof.
  intros Hid. unfold match_type.
  rewrite (app_assoc (codes name) [COLON] tail), strip_append, Hid. reflexivity.
Qed.

Lemma match_type_other (other name : string) (tail : pystr) :
  strip (codes other ++ [COLON]) (codes name ++ [COLON] ++ tail) = None →
  match_type unicode_word other (codes name ++ [COLON] ++ tail) = None.
Proof. intros Hs. unfold match_type. rewrite Hs. reflexivity. Qed.

Lemma match_reference_complete (name : string) (w rest : pystr) :
  name ∈ reference_types → w ≠ [] → Forall (λ c, word c = true) w →
  match_reference unicode_word
    ([LBRACKET] ++ (codes name ++ [COLON] ++ w) ++ [RBRACKET] ++ rest)
  = Some (codes name ++ [COLON] ++ w, rest).
Proof.
  intros Hin Hne Hall.
  pose proof (match_id_complete w rest Hne Hall) as Hid.
  change ([LBRACKET] ++ (codes name ++ [COLON] ++ w) ++ [RBRACKET] ++ rest)
    with (LBRACKET :: ((codes name ++ [COLON] ++ w) ++ [RBRACKET] ++ rest)).
  cbn [match_reference]. rewrite N.eqb_refl.
  replace ((codes name ++ [COLON] ++ w) ++ [RBRACKET] ++ rest)
    with (codes name ++ [COLON] ++ (w ++ [RBRACKET] ++ rest))
    by (rewrite <- !app_assoc; reflexivity).
  generalize dependent (w ++ [RBRACKET] ++ rest). intros tail Hid.
  unfold reference_types in *. cbn [match_types].
  repeat (apply elem_of_cons in Hin as [-> | Hin]); [| | | |inversion Hin].
  - rewrite (match_type_self _ _ _ _ Hid). reflexivity.
  - rewrite (match_type_other "source_insight") by (vm_compute; reflexivity).
    rewrite (match_type_self _ _ _ _ Hid). reflexivity.
  - rewrite (match_type_other "source_insight") by (vm_compute; reflexivity).
    rewrite (match_type_other "note") by (vm_compute; reflexivity).
    rewrite (match_type_self _ _ _ _ Hid). reflexivity.
  - rewrite (match_type_other "source_insight") by (vm_compute; reflexivity).
    rewrite (match_type_other "note") by (vm_compute; reflexivity).
    rewrite (match_type_other "source") by (vm_compute; reflexivity).
    rewrite (match_type_self _ _ _ _ Hid). reflexivity.
Qed.

Lemma match_reference_shorter (t ref rest : pystr) :
  match_reference unicode_word t = Some (ref, rest) → (length rest < length t)%nat.
Proof.
  intros Hm. apply match_reference_sound in Hm as (-> & _).
  rewrite !length_app. simpl. lia.
Qed.

Lemma re_sub_fuel (n m : nat) (t : pystr) :
  (length t ≤ n)%nat → (length t ≤ m)%nat →
  re_sub unicode_word n t = re_sub unicode_word m t.
Proof.
  revert m t. induction n as [|n IH]; intros m t Hn Hm.
  - destruct t; [|simpl in Hn; lia]. destruct m; reflexivity.
  - destruct m as [|m].
    + destruct t; [|simpl in Hm; lia]. reflexivity.
    + simpl. destruct (match_reference unicode_word t) as [[ref rest]|] eqn:Hmatch.
      * apply match_reference_shorter in Hmatch.
        rewrite (IH m rest); [reflexivity|lia|lia].
      * destruct t as [|c t]; [reflexivity|]. simpl in Hn, Hm.
        rewrite (IH m t); [reflexivity|lia|lia].
Qed.

(** One step of the scan. *)
Lemma convert_step (t : pystr) :
  convert t
  = match match_reference unicode_word t with
    | Some (ref, rest) => replace_match ref ++ convert rest
    | None => match t with [] => [] | c :: t' => c :: convert t' end
    end.
Proof.
  unfold convert_source_references. destruct t as [|c t]; [reflexivity|].
  cbn [length re_sub].
  destruct (match_reference unicode_word (c :: t)) as [[ref rest]|] eqn:Hm.
  - apply match_reference_shorter in Hm. simpl in Hm.
    rewrite (re_sub_fuel (length t) (length rest) rest); [reflexivity|lia|lia].
  - reflexivity.
Qed.

(** A bracketed reference to one of the four types, with a non-empty id of
    word characters, becomes the link with the doubled brackets, wherever it
    stands: the text before it that has no opening bracket is copied, and
    the conversion goes on behind it. *)
Theorem convert_reference (plain : pystr) (name : string) (w rest : pystr) :
  LBRACKET ∉ plain →
  name ∈ reference_types →
  w ≠ [] → Forall (λ c, word c = true) w →
  let ref := codes name ++ [COLON] ++ w in
  convert (plain ++ [LBRACKET] ++ ref ++ [RBRACKET] ++ rest)
  = plain ++ codes "[[" ++ ref ++ codes "]](/?object_id=" ++ ref ++ codes ")"
    ++ convert rest.
Proof.
  intros Hplain Hin Hne Hall ref. subst ref. induction plain as [|c plain IH].
  - rewrite !app_nil_l, convert_step.
    rewrite (match_reference_complete name w rest Hin Hne Hall).
    unfold replace_match. rewrite <- !app_assoc. reflexivity.
  - apply not_elem_of_cons in Hplain as [Hc Hplain].
    rewrite convert_step.
    change ((c :: plain) ++ ?x) with (c :: (plain ++ x)).
    cbn [match_reference].
    destruct (N.eqb_spec c LBRACKET) as [->|_]; [contradiction|].
    simpl. f_equal. apply IH, Hplain.
Qed.

(** A text without an opening bracket is returned as it is. *)
Theorem convert_plain_text (t : pystr) : LBRACKET ∉ t → convert t = t.
Proof.
  induction t as [|c t IH]; intros Hplain; [reflexivity|].
  apply not_elem_of_cons in Hplain as [Hc Hplain].
  rewrite convert_step. cbn [match_reference].
  destruct (N.eqb_spec c LBRACKET) as [->|_]; [contradiction|].
  f_equal. apply IH, Hplain.
Qed.

Lemma link_keeps_reference (ref : pystr) :
  ([LBRACKET] ++ ref ++ [RBRACKET]) `sublist_of` replace_match ref.
Proof.
  unfold replace_match.
  change (codes "[[") with ([LBRACKET] ++ [LBRACKET]).
  change (codes "]](/?object_id=") with ([RBRACKET] ++ codes "](/?object_id=").
  rewrite <- !app_assoc. apply sublist_inserts_l.
  apply sublist_app; [reflexivity|]. apply sublist_app; [reflexivity|].
  rewrite <- (app_nil_r [RBRACKET]) at 1.
  apply sublist_app; [reflexivity|]. apply sublist_nil_l.
Qed.

(** The conversion only adds text: the input can be read off the output
    in order; in particular the output is never shorter. *)
Theorem convert_keeps_input (t : pystr) :
  t `sublist_of` convert t ∧ (length t ≤ length (convert t))%nat.
Proof.
  assert (t `sublist_of` convert t) as Hsub.
  { remember (length t) as n eqn:Hn. revert t Hn.
    induction n as [n IH] using lt_wf_ind. intros t Hn.
    rewrite convert_step.
    destruct (match_reference unicode_word t) as [[ref rest]|] eqn:Hm.
    - pose proof (match_reference_shorter _ _ _ Hm) as Hlt.
      apply match_reference_sound in Hm as (Ht & _).
      rewrite Ht at 1.
      replace ([LBRACKET] ++ ref ++ [RBRACKET] ++ rest)
        with (([LBRACKET] ++ ref ++ [RBRACKET]) ++ rest)
        by (rewrite <- !app_assoc; reflexivity).
      apply sublist_app; [apply link_keeps_reference|].
      apply (IH (length rest)); [subst n; exact Hlt|reflexivity].
    - destruct t as [|c t]; [reflexivity|].
      apply sublist_skip. apply (IH (length t)); [subst n; simpl; lia|reflexivity]. }
  split; [exact Hsub|]. apply sublist_length, Hsub.
Qed.

End SourceReferenceFacts.

(** What the model check shows and when it ends the script: it stops
    exactly when a mandatory model is missing and stopping is asked for, and
    then the error is all that was shown; with every model set nothing is
    shown; and when it goes on after a missing mandatory model with the
    optional models checked too, the warning follows the error. *)
Theorem check_models_outcome (d : DefaultModels) (only_mandatory stop_on_error : bool) :
  let r := check_models d only_mandatory stop_on_error in
  (r.2 = true ↔
     stop_on_error = true ∧ forallb truthy (mandatory_models d) = false)
  ∧ (r.2 = true → r.1 = [UiError missing_models_error])
  ∧ (forallb truthy (all_models d) = true → r = ([], false))
  ∧ (forallb truthy (mandatory_models d) = false → r.2 = false →
     only_mandatory = false →
     r.1 = [UiError missing_models_error; UiWarning missing_optional_warning])
  ∧ (forallb truthy (mandatory_models d) = true → only_mandatory = true →
     r = ([], false)).
Proof.
  unfold check_models, all_models, mandatory_models. simpl.
  destruct (truthy (default_chat_model d)), (truthy (default_transformation_model d)),
    (truthy (default_embedding_model d)), (truthy (default_speech_to_text_model d)),
    (truthy (large_context_model d)), only_mandatory, stop_on_error; simpl;
    repeat split; intros; try discriminate; try reflexivity;
    repeat match goal with H : _ ∧ _ |- _ => destruct H end; try discriminate.
Qed.

Section VersionSidebarFacts.
Context {W : Type} `{ConfigServices W}.
Variable get_installed_version : W → result string * W.
Variable show_version : toml → string.

Abbreviation render := (version_sidebar get_installed_version show_version).

(** Once the session holds both keys the sidebar never asks GitHub again:
    a render makes no call to it and leaves the latest version in the
    session as it is, with both keys still there. *)
Theorem sidebar_uses_session (s : sidebar_state) (latest : string) (flag : bool)
    out s' :
  session_latest_version (session s) = Some latest →
  session_version_check_failed (session s) = Some flag →
  render s = (Ok out, s') →
  sidebar_calls s' = sidebar_calls s
  ∧ session_latest_version (session s') = Some latest
  ∧ is_Some (session_version_check_failed (session s')).
Proof.
  intros Hl Hf. unfold version_sidebar.
  destruct (sidebar_current_version get_installed_version (sidebar_world s)) as [[cv|e] w1];
    [|discriminate].
  unfold sidebar_latest, sidebar_outdated. simpl. rewrite Hl, Hf. simpl.
  rewrite Hf. destruct flag; simpl.
  - intros [= <- <-]. simpl. rewrite Hl, Hf. eauto.
  - destruct (compare_versions cv latest) as [c|e]; [destruct (c <? 0)%Z|];
      intros [= <- <-]; simpl; rewrite ?Hl, ?Hf; eauto.
Qed.

(** A failed fetch is not remembered as a version: while GitHub cannot be
    reached and the session holds no latest version, a render asks GitHub,
    shows the caption, sets the failure flag and still leaves the session
    without a latest version, so the next render asks GitHub again. *)
Theorem sidebar_retries_failed_fetch (s : sidebar_state) (current : toml) w1 :
  (∀ w, ∃ e w', get_version_from_github sidebar_url "main" w = (Raise e, w')) →
  session_latest_version (session s) = None →
  sidebar_current_version get_installed_version (sidebar_world s) = (Ok current, w1) →
  ∃ s',
    render s
    = (Ok [UiWrite ("Open Notebook: " +:+ show_version current); UiCaption offline_caption],
       s')
    ∧ sidebar_calls s' = sidebar_calls s ++ [CallGitHub]
    ∧ session_version_check_failed (session s') = Some true
    ∧ session_latest_version (session s') = None.
Proof.
  intros Hdown Hl Hcv. unfold version_sidebar. rewrite Hcv.
  unfold sidebar_latest. simpl. rewrite Hl.
  destruct (Hdown w1) as (e & w2 & Hgh). rewrite Hgh. simpl.
  eexists. split; [reflexivity|]. simpl. rewrite Hl. auto.
Qed.

(** With a fresh session and GitHub answering, the upgrade warning is shown
    exactly when the comparison of the current version with the latest is
    negative; the latest version and a cleared flag are then in the session,
    also when the comparison itself fails, which only sets the flag. *)
Theorem sidebar_first_render (s : sidebar_state) (current : toml) (latest : string)
    w1 w2 :
  session_latest_version (session s) = None →
  sidebar_current_version get_installed_version (sidebar_world s) = (Ok current, w1) →
  get_version_from_github sidebar_url "main" w1 = (Ok latest, w2) →
  ∃ out s',
    render s = (Ok out, s')
    ∧ session_latest_version (session s') = Some latest
    ∧ sidebar_calls s' = sidebar_calls s ++ [CallGitHub]
    ∧ (UiWarning (upgrade_warning latest) ∈ out ↔
       ∃ c, compare_versions current latest = Ok c ∧ (c < 0)%Z)
    ∧ (session_version_check_failed (session s') = Some true ↔
       ∃ e, compare_versions current latest = Raise e).
Proof.
  intros Hl Hcv Hgh. unfold version_sidebar. rewrite Hcv.
  unfold sidebar_latest, sidebar_outdated. simpl. rewrite Hl, Hgh. simpl.
  destruct (compare_versions current latest) as [c|e].
  - destruct (Z.ltb_spec c 0) as [Hlt|Hge]; eexists _, _; (split; [reflexivity|]); simpl;
      (split; [reflexivity|]); (split; [reflexivity|]); split; split.
    + intros _. exists c. auto.
    + intros _. apply elem_of_cons. right. apply list_elem_of_singleton. reflexivity.
    + discriminate.
    + intros [e [=]].
    + intros Hin. apply list_elem_of_singleton in Hin. discriminate Hin.
    + intros (c' & [= <-] & Hlt). lia.
    + discriminate.
    + intros [e [=]].
  - eexists _, _. split; [reflexivity|]. simpl.
    split; [reflexivity|]. split; [reflexivity|]. split; split.
    + intros Hin. apply elem_of_cons in Hin as [[=]|Hin].
      apply list_elem_of_singleton in Hin. discriminate Hin.
    + intros (c & [=] & _).
    + intros _. exists e. reflexivity.
    + reflexivity.
Qed.

End VersionSidebarFacts.

Section StreamStateFacts.
Context {W : Type} `{ChatServices W}.

Lemma page_call_spec {A} (c : chat_call) (op : W → A * W) (s : page_state) a s1 :
  page_call c op s = (a, s1) →
  session_state s1 = session_state s
  ∧ page_calls s1 = page_calls s ++ [c]
  ∧ op (page_world s) = (a, page_world s1).
Proof.
  unfold page_call. destruct (op (page_world s)) as [a' w]. intros [= <- <-]. auto.
Qed.

Lemma only_lookups_refl (l : list chat_call) : only_lookups l l.
Proof. exists []. rewrite app_nil_r. split; [reflexivity|constructor]. Qed.

Lemma only_lookups_step (l l' : list chat_call) (sid : string) :
  only_lookups l l' → only_lookups l (l' ++ [ChatGetSession sid]).
Proof.
  intros (added & -> & Hall). exists (added ++ [ChatGetSession sid]).
  rewrite app_assoc. split; [reflexivity|].
  apply Forall_app. split; [exact Hall|]. constructor; [eauto|constructor].
Qed.

Lemma retrieve_active_spec (current : option string) (s : page_state) cs s1 :
  retrieve_active current s = (cs, s1) →
  session_state s1 = session_state s ∧ only_lookups (page_calls s) (page_calls s1).
Proof.
  unfold retrieve_active. destruct (truthy current).
  - destruct (page_call _ _ s) as [r s2] eqn:Hcall.
    apply page_call_spec in Hcall as (Hss & Hcalls & _).
    destruct r; intros [= <- <-]; (split; [exact Hss|]); rewrite Hcalls;
      apply only_lookups_step, only_lookups_refl.
  - intros [= <- <-]. split; [reflexivity|apply only_lookups_refl].
Qed.

Lemma create_session_spec (nid : string) (name : option string) (s : page_state) r s1 :
  create_session_for_notebook nid name s = (r, s1) →
  session_state s1 = session_state s
  ∧ ∃ now, page_calls s1
           = page_calls s ++ [ChatNow; ChatCreateSession nid (session_title name now)].
Proof.
  unfold create_session_for_notebook.
  destruct (page_call ChatNow current_time s) as [now s2] eqn:Hnow.
  apply page_call_spec in Hnow as (Hss & Hcalls & _).
  intros Hcreate. apply page_call_spec in Hcreate as (Hss' & Hcalls' & _).
  split; [congruence|]. exists now. rewrite Hcalls', Hcalls, <- app_assoc. reflexivity.
Qed.

Lemma first_or_new_state (nid : string) (chat : option chat_session) (s : page_state) r s1 :
  first_or_new nid chat s = (r, s1) → session_state s1 = session_state s.
Proof.
  unfold first_or_new. destruct (dict_truthy chat); [intros [= <- <-]; reflexivity|].
  destruct (page_call _ _ s) as [l s2] eqn:Hcall.
  apply page_call_spec in Hcall as (Hss & _).
  destruct l as [[[|first others]|]|e].
  - intros Hc. apply create_session_spec in Hc as [Hss' _]. congruence.
  - intros [= <- <-]. exact Hss.
  - intros Hc. apply create_session_spec in Hc as [Hss' _]. congruence.
  - intros [= <- <-]. exact Hss.
Qed.

Lemma load_messages_spec (sid : string) (s : page_state) :
  is_Some (session_state (load_messages sid s) !! sid)
  ∧ (∀ k e, session_state s !! k = Some e →
       session_state (load_messages sid s) !! k = Some e)
  ∧ only_lookups (page_calls s) (page_calls (load_messages sid s)).
Proof.
  unfold load_messages. destruct (session_state s !! sid) as [e|] eqn:Hsid.
  - split; [rewrite Hsid; eauto|]. split; [auto|apply only_lookups_refl].
  - destruct (page_call _ _ s) as [r s1] eqn:Hcall.
    apply page_call_spec in Hcall as (Hss & Hcalls & _). simpl. rewrite Hss.
    split; [rewrite lookup_insert_eq; eauto|]. split.
    + intros k e Hk. rewrite lookup_insert_ne; [exact Hk|]. congruence.
    + rewrite Hcalls. apply only_lookups_step, only_lookups_refl.
Qed.


(** The helper writes to the notebook's dictionary and to none other that
    exists: whatever it does and however it ends, every other dictionary of
    the session state is as it was before, so the messages of a session
    that are there are never replaced. *)
Theorem setup_stream_state_keeps_entries (nb : option notebook) (s : page_state) r s'
    (k : string) (e : entry) :
  setup_stream_state nb s = (r, s') →
  session_state s !! k = Some e →
  nb ≠ Some {| notebook_id := Some k |} →
  session_state s' !! k = Some e.
Proof.
  unfold setup_stream_state. intros Hrun Hk Hnb.
  destruct nb as [[[nid|]]|]; cbn [notebook_id] in Hrun;
    [|injection Hrun as _ <-; exact Hk|injection Hrun as _ <-; exact Hk].
  destruct (truthy (Some nid)); simpl in Hrun; [|injection Hrun as _ <-; exact Hk].
  assert (nid ≠ k) as Hne by (intros ->; apply Hnb; reflexivity).
  destruct (session_state s !! nid) as [e0|] eqn:He0;
    [|injection Hrun as _ <-; exact Hk].
  destruct (retrieve_active _ _) as [chat0 s2] eqn:Hret.
  apply retrieve_active_spec in Hret as [Hss2 _].
  destruct (first_or_new nid chat0 s2) as [r0 s3] eqn:Hfirst.
  apply first_or_new_state in Hfirst as Hss3.
  assert (session_state s3 !! k = Some e) as Hk3.
  { rewrite Hss3, Hss2. simpl. rewrite lookup_insert_ne; [exact Hk|exact Hne]. }
  destruct r0 as [chat|err]; [|injection Hrun as _ <-; exact Hk3].
  destruct (negb (dict_truthy chat) || negb (truthy (chat ≫= chat_id)));
    [injection Hrun as _ <-; exact Hk3|].
  destruct chat as [cs|]; [|injection Hrun as _ <-; exact Hk3].
  injection Hrun as _ <-.
  apply load_messages_spec. simpl. rewrite lookup_insert_ne; [exact Hk3|exact Hne].
Qed.

(** An active session that the service can retrieve is used as it is: the
    helper returns it and, but for looking sessions up, calls neither the
    listing of the notebook's sessions nor the creation of one. *)
Theorem setup_stream_state_reuses_active_session (nid sid sid' : string) (e : entry)
    (cs : chat_session) (s : page_state) w1 :
  nid ≠ "" → sid ≠ "" → sid' ≠ "" →
  session_state s !! nid = Some e →
  entry_active_session e = Some sid →
  chat_get_session sid (page_world s) = (Ok (Some cs), w1) →
  chat_id cs = Some sid' →
  ∃ s',
    setup_stream_state (Some {| notebook_id := Some nid |}) s = (Ok cs, s')
    ∧ only_lookups (page_calls s) (page_calls s').
Proof.
  intros Hnid Hsid Hsid' He Hact Hget Hid.
  destruct nid as [|n0 nid]; [contradiction|].
  destruct sid as [|c0 sid]; [contradiction|].
  destruct sid' as [|d0 sid']; [contradiction|].
  unfold setup_stream_state. simpl. rewrite He.
  assert (entry_active_session (set_context_config e) = Some (String c0 sid)) as Hact'.
  { unfold set_context_config. destruct (entry_context_config e); exact Hact. }
  rewrite Hact'. unfold retrieve_active. simpl. unfold page_call at 1. simpl.
  rewrite Hget. unfold first_or_new.
  assert (dict_truthy (Some cs) = true) as Htruthy.
  { simpl. rewrite Hid. reflexivity. }
  rewrite Htruthy. simpl. rewrite Hid. simpl.
  eexists. split; [reflexivity|].
  match goal with |- only_lookups _ (page_calls (load_messages ?x ?st)) =>
    destruct (load_messages_spec x st) as (_ & _ & (added & -> & Hall)) end.
  simpl. exists ([ChatGetSession (String c0 sid)] ++ added). rewrite app_assoc.
  split; [reflexivity|]. apply Forall_app. split; [|exact Hall].
  constructor; [eauto|constructor].
Qed.

(** A session is created only when the service has listed none for the
    notebook: a run that did not retrieve an active session and was given a
    non-empty list takes the first session of the list and creates
    nothing. *)
Theorem setup_stream_state_takes_first_session (nid sid : string) (e : entry)
    (first : chat_session) (others : list chat_session) (s : page_state) w1 :
  nid ≠ "" → sid ≠ "" →
  session_state s !! nid = Some e →
  truthy (entry_active_session e) = false →
  chat_get_sessions nid (page_world s) = (Ok (Some (first :: others)), w1) →
  chat_id first = Some sid →
  ∃ s',
    setup_stream_state (Some {| notebook_id := Some nid |}) s = (Ok first, s')
    ∧ only_lookups (page_calls s ++ [ChatGetSessions nid]) (page_calls s').
Proof.
  intros Hnid Hsid He Hact Hlist Hid.
  destruct nid as [|n0 nid]; [contradiction|].
  destruct sid as [|c0 sid]; [contradiction|].
  unfold setup_stream_state. simpl. rewrite He.
  assert (entry_active_session (set_context_config e) = entry_active_session e) as Hact'.
  { unfold set_context_config. destruct (entry_context_config e); reflexivity. }
  rewrite Hact'. unfold retrieve_active. rewrite Hact.
  unfold first_or_new. simpl. unfold page_call at 1. simpl. rewrite Hlist.
  simpl. rewrite Hid. simpl.
  eexists. split; [reflexivity|].
  match goal with |- only_lookups _ (page_calls (load_messages ?x ?st)) =>
    destruct (load_messages_spec x st) as (_ & _ & Hl) end.
  exact Hl.
Qed.

End StreamStateFacts.

(** * The further properties on the samples *)

Lemma collect_queries_in_order_witness :
  collect_on sample_cfg existing true false true (sample_store, [])
  = (Ok {| sources := ["source:a"; "source:gone"]; notes := [];
           insights := ["source_insight:i"] |},
     (sample_store, [EvQuery QSourcesWithEmbedding; EvQuery QInsightsWithEmbedding]))
  ∧ ∃ sent,
      [EvQuery QSourcesWithEmbedding; EvQuery QInsightsWithEmbedding] = [] ++ sent
      ∧ sent `prefix_of` planned_queries existing true false true.
Proof.
  assert (collect_on sample_cfg existing true false true (sample_store, [])
          = (Ok {| sources := ["source:a"; "source:gone"]; notes := [];
                   insights := ["source_insight:i"] |},
             (sample_store,
              [EvQuery QSourcesWithEmbedding; EvQuery QInsightsWithEmbedding])))
    as Hc by (vm_compute; reflexivity).
  split; [exact Hc|].
  destruct (@collect_queries_in_order Store (store_env sample_cfg) existing true false true
              sample_store [] _ _ Hc) as (sent & Hsent & Hpre & _).
  exists sent. split; [exact Hsent|exact Hpre].
Defined.

Lemma rebuild_per_type_counters_witness :
  @get_embedding_model Store (store_env sample_cfg) sample_store
  = (Ok (Some sample_model), sample_store)
  ∧ @collect_for Store (store_env sample_cfg) (rebuild_input existing true true true)
      (sample_store, [EvGetModel])
    = (Ok sample_items, (sample_store, sample_queries))
  ∧ ∃ out st',
      rebuild_on sample_cfg (rebuild_input existing true true true) (sample_store, [])
      = (Ok out, st')
      ∧ (sources_processed out ≤ 2)%nat
      ∧ (notes_processed out ≤ 1)%nat
      ∧ (insights_processed out ≤ 1)%nat
      ∧ failed_items out = 4 - processed_items out.
Proof.
  assert (@collect_for Store (store_env sample_cfg) (rebuild_input existing true true true)
            (sample_store, [] ++ [EvGetModel])
          = (Ok sample_items, (sample_store, sample_queries)))
    as Hc by (vm_compute; reflexivity).
  split; [reflexivity|]. split; [exact Hc|].
  destruct (@rebuild_per_type_counters Store (store_env sample_cfg)
              (rebuild_input existing true true true) sample_store sample_store []
              sample_model _ _ eq_refl Hc)
    as (out & st' & Hrun & Hs & Hn & Hi & _ & Hf).
  exists out, st'. auto.
Defined.

Lemma rebuild_collect_failure_is_fatal_witness :
  @get_embedding_model Store (store_env notes_outage_cfg) sample_store
  = (Ok (Some sample_model), sample_store)
  ∧ @collect_for Store (store_env notes_outage_cfg) (rebuild_input existing true true true)
      (sample_store, [EvGetModel])
    = (Raise (Exception "store unreachable"),
       (sample_store,
        [EvGetModel; EvQuery QSourcesWithEmbedding; EvQuery QNotesWithEmbedding]))
  ∧ rebuild_on notes_outage_cfg (rebuild_input existing true true true) (sample_store, [])
    = (Ok (failure_report "store unreachable"),
       (sample_store,
        [EvGetModel; EvQuery QSourcesWithEmbedding; EvQuery QNotesWithEmbedding])).
Proof.
  assert (@collect_for Store (store_env notes_outage_cfg)
            (rebuild_input existing true true true) (sample_store, [] ++ [EvGetModel])
          = (Raise (Exception "store unreachable"),
             (sample_store,
              [EvGetModel; EvQuery QSourcesWithEmbedding; EvQuery QNotesWithEmbedding])))
    as Hc by (vm_compute; reflexivity).
  split; [reflexivity|]. split; [exact Hc|].
  exact (proj1 (@rebuild_collect_failure_is_fatal Store (store_env notes_outage_cfg)
                  (rebuild_input existing true true true) sample_store sample_store []
                  sample_model _ _ eq_refl Hc)).
Defined.

Lemma embed_single_without_model_witness :
  @get_embedding_model Store (store_env no_model_cfg) sample_store
  = (Ok None, sample_store)
  ∧ embed_on no_model_cfg (item_request ItSource "source:a") (sample_store, [])
    = (Ok (embed_failure ItSource "source:a" no_model_message),
       (sample_store, [EvGetModel])).
Proof.
  split; [reflexivity|].
  exact (@embed_single_without_model Store (store_env no_model_cfg)
           (item_request ItSource "source:a") sample_store sample_store [] eq_refl).
Defined.

Lemma embed_single_absent_item_witness :
  @get_embedding_model Store (store_env sample_cfg) sample_store
  = (Ok (Some sample_model), sample_store)
  ∧ @item_absent Store (store_env sample_cfg) (ItInsight, "source_insight:none")
      sample_store
  ∧ ∃ w2,
      embed_on sample_cfg (item_request ItInsight "source_insight:none") (sample_store, [])
      = (Ok (embed_failure ItInsight "source_insight:none"
               "Insight 'source_insight:none' not found"),
         (w2, [EvGetModel; EvGet ItInsight "source_insight:none"])).
Proof.
  assert (@item_absent Store (store_env sample_cfg) (ItInsight, "source_insight:none")
            sample_store) as Habs by (vm_compute; reflexivity).
  split; [reflexivity|]. split; [exact Habs|].
  destruct (@embed_single_absent_item Store (store_env sample_cfg) ItInsight
              "source_insight:none" sample_store sample_store [] sample_model eq_refl Habs)
    as (w2 & Hrun & _).
  exists w2. exact Hrun.
Defined.

Lemma collect_all_selects_content_witness :
  collect_on sample_cfg all true true false (sample_store, [])
  = (Ok {| sources := ["source:a"; "source:b"]; notes := ["note:n"; "note:plain"];
           insights := [] |},
     (sample_store, [EvQuery QSourcesAll; EvQuery QNotesAll]))
  ∧ NoDup ["note:n"; "note:plain"]
  ∧ ("note:plain" ∈ ["note:n"; "note:plain"] ↔
     true = true ∧ ∃ r text, note_table sample_store !! "note:plain" = Some r
                             ∧ note_content r = Some text).
Proof.
  assert (collect_on sample_cfg all true true false (sample_store, [])
          = (Ok {| sources := ["source:a"; "source:b"];
                   notes := ["note:n"; "note:plain"]; insights := [] |},
             (sample_store, [EvQuery QSourcesAll; EvQuery QNotesAll])))
    as Hc by (vm_compute; reflexivity).
  split; [exact Hc|].
  pose proof (collect_all_selects_content sample_cfg true true false sample_store [] _ _ Hc)
    as (_ & Hnotes & _ & _ & Hd & _).
  split; [exact Hd|]. exact (Hnotes "note:plain").
Defined.

Lemma tidy_store_chunks (ch : chunk_row) :
  ch ∈ source_embedding tidy_store →
  ∃ r text, source_table tidy_store !! chunk_source ch = Some r ∧ full_text r = Some text.
Proof.
  intros Hin. apply list_elem_of_singleton in Hin as ->.
  exists {| full_text := Some "hello" |}, "hello". split; reflexivity.
Defined.

Lemma tidy_store_notes (id : string) (r : note_row) :
  note_table tidy_store !! id = Some r → is_Some (note_embedding r) →
  is_Some (note_content r).
Proof.
  intros Hl _. unfold tidy_store in Hl. simpl in Hl.
  apply lookup_insert_Some in Hl as [[_ <-]|[_ Hl]]; [eexists; reflexivity|].
  apply lookup_singleton_Some in Hl as [_ <-]. eexists; reflexivity.
Defined.

Lemma collect_existing_within_all_witness :
  collect_on plain_cfg existing true true true (tidy_store, [])
  = (Ok {| sources := ["source:a"]; notes := ["note:n"];
           insights := ["source_insight:i"] |},
     (tidy_store, [EvQuery QSourcesWithEmbedding; EvQuery QNotesWithEmbedding;
                   EvQuery QInsightsWithEmbedding]))
  ∧ collect_on plain_cfg all true true true (tidy_store, [])
    = (Ok {| sources := ["source:a"]; notes := ["note:n"; "note:plain"];
             insights := ["source_insight:i"] |},
       (tidy_store, [EvQuery QSourcesAll; EvQuery QNotesAll; EvQuery QInsightsAll]))
  ∧ ["note:n"] ⊆ ["note:n"; "note:plain"].
Proof.
  assert (collect_on plain_cfg existing true true true (tidy_store, [])
          = (Ok {| sources := ["source:a"]; notes := ["note:n"];
                   insights := ["source_insight:i"] |},
             (tidy_store, [EvQuery QSourcesWithEmbedding; EvQuery QNotesWithEmbedding;
                           EvQuery QInsightsWithEmbedding])))
    as He by (vm_compute; reflexivity).
  assert (collect_on plain_cfg all true true true (tidy_store, [])
          = (Ok {| sources := ["source:a"]; notes := ["note:n"; "note:plain"];
                   insights := ["source_insight:i"] |},
             (tidy_store, [EvQuery QSourcesAll; EvQuery QNotesAll; EvQuery QInsightsAll])))
    as Ha by (vm_compute; reflexivity).
  split; [exact He|]. split; [exact Ha|].
  exact (proj1 (proj2 (collect_existing_within_all plain_cfg true true true tidy_store
                         [] [] _ _ _ _ tidy_store_chunks tidy_store_notes He Ha))).
Defined.

Lemma embed_insight_updates_embedding_witness :
  model_lookup plain_cfg = Ok (Some plain_model)
  ∧ source_insight tidy_store !! "source_insight:i" = Some sample_insight
  ∧ plain_model (insight_text sample_insight) = Ok [4%Z]
  ∧ ∃ out st' log',
      embed_on plain_cfg (item_request ItInsight "source_insight:i") (tidy_store, [])
      = (Ok out, (st', log'))
      ∧ es_success out = true
      ∧ source_insight st' !! "source_insight:i"
        = Some {| insight_text := "fine"; insight_embedding := Some [4%Z] |}
      ∧ note_table st' = note_table tidy_store.
Proof.
  assert (source_insight tidy_store !! "source_insight:i" = Some sample_insight) as Hrow
    by (vm_compute; reflexivity).
  split; [reflexivity|]. split; [exact Hrow|]. split; [reflexivity|].
  destruct (embed_insight_updates_embedding plain_cfg "source_insight:i" tidy_store []
              plain_model sample_insight [4%Z] eq_refl Hrow eq_refl eq_refl)
    as (out & st' & log' & Hrun & Hok & _ & Hnew & _ & _ & _ & Hnotes).
  exists out, st', log'. auto.
Defined.

Lemma plain_cfg_healthy : healthy plain_cfg plain_model.
Proof.
  split; [reflexivity|]. split; [|reflexivity].
  intros text. eexists. reflexivity.
Defined.

Lemma rebuild_healthy_fails_no_item_witness :
  healthy plain_cfg plain_model
  ∧ ∃ out st',
      rebuild_on plain_cfg (rebuild_input all true true true) (sample_store, [])
      = (Ok out, st')
      ∧ success out = true
      ∧ failed_items out = 0
      ∧ processed_items out = total_items out
      ∧ total_items out = 5.
Proof.
  split; [exact plain_cfg_healthy|].
  destruct (rebuild_healthy_fails_no_item plain_cfg plain_model all true true true
              sample_store [] plain_cfg_healthy)
    as (out & st' & Hrun & Hok & Hf & Hp & Ht).
  { discriminate. }
  exists out, st'. split; [exact Hrun|]. split; [exact Hok|]. split; [exact Hf|].
  split; [exact Hp|]. rewrite Ht. vm_compute. reflexivity.
Defined.

Lemma version_checked_at_most_once_witness :
  (∀ w, (0 < (@time_time unit online_services w).1)%Q)
  ∧ @get_latest_version_cached unit online_services (TomlStr "9.9.9")
      (@get_latest_version_cached unit online_services (TomlStr "1.0.0") fresh_state).2
    = @get_latest_version_cached unit online_services (TomlStr "1.0.0") fresh_state
  ∧ (@get_latest_version_cached unit online_services (TomlStr "1.0.0") fresh_state).1
    = (Some "1.1.0", true).
Proof.
  assert (∀ w, (0 < (@time_time unit online_services w).1)%Q) as Hclock
    by (intros w; reflexivity).
  split; [exact Hclock|]. split; [|reflexivity].
  exact (@version_checked_at_most_once unit online_services (TomlStr "1.0.0")
           (TomlStr "9.9.9") fresh_state Hclock).
Defined.

Lemma version_check_outcome_witness :
  (timestamp (cache fresh_state) <= 0)%Q
  ∧ calls (@get_latest_version_cached unit offline_services (TomlStr "1.0.0") fresh_state).2
    = [CallGitHub; CallClock]
  ∧ check_failed
      (cache (@get_latest_version_cached unit offline_services (TomlStr "1.0.0")
                fresh_state).2)
    = true.
Proof.
  assert (timestamp (cache fresh_state) <= 0)%Q as Hcold by (apply Qle_refl).
  split; [exact Hcold|].
  destruct (@version_check_outcome unit offline_services (TomlStr "1.0.0") fresh_state Hcold)
    as (_ & _ & Hcalls).
  split; [exact Hcalls|reflexivity].
Defined.

Lemma get_config_env_override_witness :
  "https://notebook.example/api" ≠ ""
  ∧ ∃ resp s',
      @get_config unit offline_services (Some "https://notebook.example/api")
        proxied_request fresh_state = (Ok resp, s')
      ∧ apiUrl resp = "https://notebook.example/api".
Proof.
  assert ("https://notebook.example/api" ≠ "") as Hne by discriminate.
  split; [exact Hne|].
  exact (@get_config_env_override unit offline_services "https://notebook.example/api"
           proxied_request fresh_state Hne).
Defined.

Lemma get_config_detects_url_witness :
  (Some "" = None ∨ Some "" = Some "")
  ∧ client sample_request = Some "10.0.0.7"
  ∧ ∃ resp s',
      @get_config unit online_services (Some "") sample_request fresh_state = (Ok resp, s')
      ∧ apiUrl resp = "http://notebook.example:8080".
Proof.
  split; [right; reflexivity|]. split; [reflexivity|].
  destruct (@get_config_detects_url unit online_services (Some "") sample_request
              fresh_state "10.0.0.7" (or_intror eq_refl) eq_refl)
    as (resp & s' & Hrun & Hurl).
  exists resp, s'. split; [exact Hrun|]. rewrite Hurl. vm_compute. reflexivity.
Defined.

Lemma get_config_needs_client_witness :
  ((None : option string) = None ∨ None = Some "")
  ∧ client proxied_request = None
  ∧ headers proxied_request !! "host" = Some "notebook.example"
  ∧ @get_config unit online_services None proxied_request fresh_state
    = (Raise (AttributeError "'NoneType' object has no attribute 'host'"), fresh_state).
Proof.
  split; [left; reflexivity|]. split; [reflexivity|].
  split; [vm_compute; reflexivity|].
  exact (@get_config_needs_client unit online_services None proxied_request fresh_state
           (or_introl eq_refl) eq_refl).
Defined.

Lemma get_config_mirrors_cache_witness :
  let resp :=
    {| apiUrl := "http://notebook.example:8080"; version := TomlStr "1.0.0";
       latestVersion := Some "1.1.0"; hasUpdate := true; dbStatus := online |} in
  let s' :=
    {| cache := {| latest_version := Some "1.1.0"; has_update := true;
                   timestamp := 1%Q; check_failed := false |};
       world := tt;
       calls := [CallReadFile; CallGitHub; CallClock; CallHealth] |} in
  @get_config unit online_services None sample_request fresh_state = (Ok resp, s')
  ∧ latestVersion resp = latest_version (cache s')
  ∧ hasUpdate resp = has_update (cache s')
  ∧ calls s' = [CallReadFile; CallGitHub; CallClock; CallHealth].
Proof.
  intros resp s'.
  assert (@get_config unit online_services None sample_request fresh_state = (Ok resp, s'))
    as Hrun by (vm_compute; reflexivity).
  split; [exact Hrun|].
  destruct (@get_config_mirrors_cache unit online_services None sample_request fresh_state
              resp s' Hrun) as (Hl & Hu & _ & Hcalls).
  split; [exact Hl|]. split; [exact Hu|]. reflexivity.
Defined.

Lemma convert_reference_witness :
  (LBRACKET ∉ codes "see ")
  ∧ "note" ∈ reference_types
  ∧ codes "a1" ≠ []
  ∧ Forall (λ c, is_word ascii_only c = true) (codes "a1")
  ∧ convert_source_references ascii_only
      (codes "see " ++ [LBRACKET] ++ (codes "note" ++ [COLON] ++ codes "a1")
       ++ [RBRACKET] ++ codes ".")
    = codes "see " ++ codes "[[" ++ (codes "note" ++ [COLON] ++ codes "a1")
      ++ codes "]](/?object_id=" ++ (codes "note" ++ [COLON] ++ codes "a1") ++ codes ")"
      ++ convert_source_references ascii_only (codes ".").
Proof.
  assert (LBRACKET ∉ codes "see ") as Hplain.
  { intros Hin. vm_compute in Hin.
    repeat (apply elem_of_cons in Hin as [Hin|Hin]; [discriminate Hin|]).
    inversion Hin. }
  assert ("note" ∈ reference_types) as Hname.
  { apply elem_of_cons. right. apply elem_of_cons. left. reflexivity. }
  assert (codes "a1" ≠ []) as Hne by discriminate.
  assert (Forall (λ c, is_word ascii_only c = true) (codes "a1")) as Hall
    by (repeat constructor).
  split; [exact Hplain|]. split; [exact Hname|]. split; [exact Hne|].
  split; [exact Hall|].
  exact (convert_reference ascii_only (codes "see ") "note" (codes "a1") (codes ".")
           Hplain Hname Hne Hall).
Defined.

Lemma convert_plain_text_witness :
  (LBRACKET ∉ codes "no link ]")
  ∧ convert_source_references ascii_only (codes "no link ]") = codes "no link ]".
Proof.
  assert (LBRACKET ∉ codes "no link ]") as Hplain.
  { intros Hin. vm_compute in Hin.
    repeat (apply elem_of_cons in Hin as [Hin|Hin]; [discriminate Hin|]).
    inversion Hin. }
  split; [exact Hplain|].
  exact (convert_plain_text ascii_only (codes "no link ]") Hplain).
Defined.

Lemma sidebar_uses_session_witness :
  let s := sample_sidebar (Some "1.1.0") (Some false) in
  let out := [UiWrite "Open Notebook: 1.0.0"; UiWarning (upgrade_warning "1.1.0")] in
  session_latest_version (session s) = Some "1.1.0"
  ∧ session_version_check_failed (session s) = Some false
  ∧ @version_sidebar unit online_services sample_installed show_sample_version s
    = (Ok out, s)
  ∧ sidebar_calls s = [].
Proof.
  intros s out.
  assert (@version_sidebar unit online_services sample_installed show_sample_version s
          = (Ok out, s)) as Hrun by (vm_compute; reflexivity).
  split; [reflexivity|]. split; [reflexivity|]. split; [exact Hrun|].
  exact (proj1 (@sidebar_uses_session unit online_services sample_installed
                  show_sample_version s "1.1.0" false out s eq_refl eq_refl Hrun)).
Defined.

Lemma sidebar_retries_failed_fetch_witness :
  let s := sample_sidebar None None in
  (∀ w, ∃ e w',
     @get_version_from_github unit offline_services sidebar_url "main" w = (Raise e, w'))
  ∧ session_latest_version (session s) = None
  ∧ @sidebar_current_version unit offline_services sample_installed (sidebar_world s)
    = (Ok (TomlStr "1.0.0"), tt)
  ∧ ∃ s',
      @version_sidebar unit offline_services sample_installed show_sample_version s
      = (Ok [UiWrite ("Open Notebook: " +:+ show_sample_version (TomlStr "1.0.0"));
             UiCaption offline_caption], s')
      ∧ sidebar_calls s' = [CallGitHub]
      ∧ session_latest_version (session s') = None.
Proof.
  intros s.
  assert (∀ w, ∃ e w',
            @get_version_from_github unit offline_services sidebar_url "main" w
            = (Raise e, w')) as Hdown by (intros w; eexists _, _; reflexivity).
  split; [exact Hdown|]. split; [reflexivity|]. split; [reflexivity|].
  destruct (@sidebar_retries_failed_fetch unit offline_services sample_installed
              show_sample_version s (TomlStr "1.0.0") tt Hdown eq_refl eq_refl)
    as (s' & Hrun & Hcalls & _ & Hlatest).
  exists s'. auto.
Defined.

Lemma sidebar_first_render_witness :
  let s := sample_sidebar None None in
  session_latest_version (session s) = None
  ∧ @sidebar_current_version unit online_services sample_installed (sidebar_world s)
    = (Ok (TomlStr "1.0.0"), tt)
  ∧ @get_version_from_github unit online_services sidebar_url "main" tt = (Ok "1.1.0", tt)
  ∧ ∃ out s',
      @version_sidebar unit online_services sample_installed show_sample_version s
      = (Ok out, s')
      ∧ session_latest_version (session s') = Some "1.1.0"
      ∧ sidebar_calls s' = [CallGitHub].
Proof.
  intros s. split; [reflexivity|]. split; [reflexivity|]. split; [reflexivity|].
  destruct (@sidebar_first_render unit online_services sample_installed
              show_sample_version s (TomlStr "1.0.0") "1.1.0" tt tt eq_refl eq_refl eq_refl)
    as (out & s' & Hrun & Hlatest & Hcalls & _).
  exists out, s'. auto.
Defined.


Lemma setup_stream_state_keeps_entries_witness :
  let run := @setup_stream_state unit listing_chat sample_notebook active_page in
  run = (run.1, run.2)
  ∧ session_state active_page !! "chat_session:old" = Some (session_entry [VInt 7])
  ∧ sample_notebook ≠ Some {| notebook_id := Some "chat_session:old" |}
  ∧ session_state run.2 !! "chat_session:old" = Some (session_entry [VInt 7]).
Proof.
  intros run.
  assert (run = (run.1, run.2)) as Hrun by (destruct run; reflexivity).
  assert (session_state active_page !! "chat_session:old" = Some (session_entry [VInt 7]))
    as Hold by (vm_compute; reflexivity).
  assert (sample_notebook ≠ Some {| notebook_id := Some "chat_session:old" |}) as Hnb
    by discriminate.
  split; [exact Hrun|]. split; [exact Hold|]. split; [exact Hnb|].
  exact (@setup_stream_state_keeps_entries unit listing_chat sample_notebook active_page
           run.1 run.2 "chat_session:old" (session_entry [VInt 7]) Hrun Hold Hnb).
Defined.

Lemma setup_stream_state_reuses_active_session_witness :
  session_state active_page !! "notebook:1"
  = Some (set_active_session_opt (Some "chat_session:1") empty_entry)
  ∧ @chat_get_session unit listing_chat "chat_session:1" (page_world active_page)
    = (Ok (Some sample_session), tt)
  ∧ ∃ s',
      @setup_stream_state unit listing_chat sample_notebook active_page
      = (Ok sample_session, s')
      ∧ only_lookups (page_calls active_page) (page_calls s').
Proof.
  assert (session_state active_page !! "notebook:1"
          = Some (set_active_session_opt (Some "chat_session:1") empty_entry)) as He
    by (vm_compute; reflexivity).
  split; [exact He|]. split; [reflexivity|].
  assert ("notebook:1" ≠ "") as Hn by discriminate.
  assert ("chat_session:1" ≠ "") as Hs by discriminate.
  exact (@setup_stream_state_reuses_active_session unit listing_chat "notebook:1"
           "chat_session:1" "chat_session:1" _ sample_session active_page tt
           Hn Hs Hs He eq_refl eq_refl eq_refl).
Defined.

Lemma setup_stream_state_takes_first_session_witness :
  session_state idle_page !! "notebook:1"
  = Some (set_active_session_opt None empty_entry)
  ∧ @chat_get_sessions unit listing_chat "notebook:1" (page_world idle_page)
    = (Ok (Some [sample_session]), tt)
  ∧ ∃ s',
      @setup_stream_state unit listing_chat sample_notebook idle_page
      = (Ok sample_session, s')
      ∧ only_lookups (page_calls idle_page ++ [ChatGetSessions "notebook:1"])
          (page_calls s').
Proof.
  assert (session_state idle_page !! "notebook:1"
          = Some (set_active_session_opt None empty_entry)) as He
    by (vm_compute; reflexivity).
  split; [exact He|]. split; [reflexivity|].
  assert ("notebook:1" ≠ "") as Hn by discriminate.
  assert ("chat_session:1" ≠ "") as Hs by discriminate.
  exact (@setup_stream_state_takes_first_session unit listing_chat "notebook:1"
           "chat_session:1" _ sample_session [] idle_page tt
           Hn Hs He eq_refl eq_refl eq_refl).
Defined.
